(** * Workflow canvas: graph normalization, branch resolution and layout

    A shallow embedding of [frontend/src/components/WorkflowCanvas.jsx]
    (the normalization effect and [getLayoutedElements]) and of the JSON
    export of [frontend/src/components/WorkflowConsole.jsx].

    The component consumes an untyped JSON value, so the embedding starts
    with a small model of JavaScript values and of the handful of
    language operations the component applies to them: truthiness, [||],
    property reads with and without optional chaining, [String(...)],
    strict comparison against a string literal, and case conversion. *)

From Stdlib Require Import List String Ascii ZArith QArith Bool Lia DecimalString.
From Stdlib Require DecimalPos DecimalZ.
Import ListNotations.
Local Close Scope Q_scope.
Local Open Scope string_scope.

(** ** JavaScript values *)

Module JS.

(** A JSON-shaped JavaScript value.  Numbers are the integer-valued ones
    (identifiers, indexes); an object is the list of its own enumerable
    properties in enumeration order, and a property read returns the
    first binding of the key. *)
#[local] Unset Elimination Schemes.
Inductive value : Type :=
| VUndef
| VNull
| VBool (b : bool)
| VNum (z : Z)
| VStr (s : string)
| VArr (elems : list value)
| VObj (props : list (string * value)).
#[local] Set Elimination Schemes.

(** Induction over values, with the hypothesis available for every
    element of an array and every property value of an object. *)
Fixpoint value_ind (P : value -> Prop)
    (Hundef : P VUndef) (Hnull : P VNull)
    (Hbool : forall b, P (VBool b)) (Hnum : forall z, P (VNum z))
    (Hstr : forall s, P (VStr s))
    (Harr : forall elems, Forall P elems -> P (VArr elems))
    (Hobj : forall props,
        Forall (fun kv => P (snd kv)) props -> P (VObj props))
    (v : value) : P v :=
  match v with
  | VUndef => Hundef
  | VNull => Hnull
  | VBool b => Hbool b
  | VNum z => Hnum z
  | VStr s => Hstr s
  | VArr elems =>
      Harr elems
        ((fix all (l : list value) : Forall P l :=
            match l with
            | [] => Forall_nil P
            | x :: rest =>
                Forall_cons x
                  (value_ind P Hundef Hnull Hbool Hnum Hstr Harr Hobj x)
                  (all rest)
            end) elems)
  | VObj props =>
      Hobj props
        ((fix all (l : list (string * value))
            : Forall (fun kv => P (snd kv)) l :=
            match l with
            | [] => Forall_nil _
            | kv :: rest =>
                Forall_cons kv
                  (value_ind P Hundef Hnull Hbool Hnum Hstr Harr Hobj (snd kv))
                  (all rest)
            end) props)
  end.

(** Outcome of an expression that may throw.  Every exception the
    component can raise on JSON input is a [TypeError]. *)
Inductive result (A : Type) : Type :=
| Ok (a : A)
| TypeError.
Arguments Ok {A} a.
Arguments TypeError {A}.

Definition bind {A B} (r : result A) (k : A -> result B) : result B :=
  match r with
  | Ok a => k a
  | TypeError => TypeError
  end.

Notation "x <- e ;; k" := (bind e (fun x => k))
  (at level 61, e at next level, right associativity).

(** [ToBoolean]. *)
Definition truthy (v : value) : bool :=
  match v with
  | VUndef | VNull => false
  | VBool b => b
  | VNum z => negb (Z.eqb z 0)
  | VStr s => negb (String.eqb s EmptyString)
  | VArr _ | VObj _ => true
  end.

(** [a || b]: [b] is evaluated only when [a] is falsy. *)
Definition or_else (a b : result value) : result value :=
  x <- a ;; if truthy x then Ok x else b.

(** [a && b]: [b] is evaluated only when [a] is truthy. *)
Definition and_then (a b : result value) : result value :=
  x <- a ;; if truthy x then b else Ok x.

(** The value of [a || b] when neither operand throws. *)
Definition pick (a b : value) : value :=
  if truthy a then a else b.

(** [v === 'lit'] for a string literal. *)
Definition is_str (v : value) (lit : string) : bool :=
  match v with
  | VStr s => String.eqb s lit
  | _ => false
  end.

(** Own-property lookup; [undefined] when the key is not bound. *)
Fixpoint lookup (k : string) (props : list (string * value)) : value :=
  match props with
  | [] => VUndef
  | (k', v) :: rest => if String.eqb k' k then v else lookup k rest
  end.

Definition has_key (k : string) (props : list (string * value)) : bool :=
  existsb (fun kv => String.eqb (fst kv) k) props.

(** [v.k] for the property names the component reads ([workflows],
    [workflow_data], [nodes], [connections], [edges], [id], [type],
    [label], [data], [nodeType], [config], [params],
    [integration_type_name], [task], [task_display_name], [position],
    [source], [from], [target], [to], [sourceHandle], [condition],
    [value]).  None of them is defined on [Object.prototype],
    [Array.prototype] or on the wrappers of strings, numbers and
    booleans, so only an object can answer with something else than
    [undefined]; reading a property of [undefined] or [null] throws. *)
Definition get (v : value) (k : string) : result value :=
  match v with
  | VUndef | VNull => TypeError
  | VObj props => Ok (lookup k props)
  | VBool _ | VNum _ | VStr _ | VArr _ => Ok VUndef
  end.

(** [v?.k]. *)
Definition get_opt (v : value) (k : string) : value :=
  match v with
  | VObj props => lookup k props
  | _ => VUndef
  end.

(** [v[0]]. *)
Definition index0 (v : value) : result value :=
  match v with
  | VUndef | VNull => TypeError
  | VArr elems => Ok (hd VUndef elems)
  | VStr s =>
      Ok (match s with
          | EmptyString => VUndef
          | String c _ => VStr (String c EmptyString)
          end)
  | VObj props => Ok (lookup "0" props)
  | VBool _ | VNum _ => Ok VUndef
  end.

(** Decimal form of an integer-valued number, as [String(n)] prints it
    (below 10^21 in magnitude, where JavaScript does not yet switch to
    exponent notation). *)
Definition string_of_Z (z : Z) : string :=
  NilZero.string_of_int (Z.to_int z).

Definition string_of_nat (n : nat) : string :=
  string_of_Z (Z.of_nat n).

(** [String(v)].  An array is joined with commas, [undefined] and [null]
    elements printing as the empty string.  A plain object prints through
    [Object.prototype.toString] unless an own [toString] property (never
    callable in a JSON value) shadows it, in which case the conversion
    falls to [valueOf], obtains no primitive and throws. *)
Fixpoint to_string (v : value) : result string :=
  match v with
  | VUndef => Ok "undefined"
  | VNull => Ok "null"
  | VBool true => Ok "true"
  | VBool false => Ok "false"
  | VNum z => Ok (string_of_Z z)
  | VStr s => Ok s
  | VArr elems =>
      (fix join (l : list value) : result string :=
         match l with
         | [] => Ok EmptyString
         | x :: rest =>
             s <- match x with
                  | VUndef | VNull => Ok EmptyString
                  | _ => to_string x
                  end ;;
             match rest with
             | [] => Ok s
             | _ :: _ => r <- join rest ;; Ok (s ++ "," ++ r)
             end
         end) elems
  | VObj props =>
      if has_key "toString" props then TypeError else Ok "[object Object]"
  end.

Definition lower_ascii (c : ascii) : ascii :=
  let n := nat_of_ascii c in
  if andb (Nat.leb 65 n) (Nat.leb n 90) then ascii_of_nat (n + 32) else c.

Definition upper_ascii (c : ascii) : ascii :=
  let n := nat_of_ascii c in
  if andb (Nat.leb 97 n) (Nat.leb n 122) then ascii_of_nat (n - 32) else c.

Fixpoint map_string (f : ascii -> ascii) (s : string) : string :=
  match s with
  | EmptyString => EmptyString
  | String c rest => String (f c) (map_string f rest)
  end.

(** [s.toLowerCase()] and [s.toUpperCase()] on the ASCII letters. *)
Definition toLowerCase : string -> string := map_string lower_ascii.
Definition toUpperCase : string -> string := map_string upper_ascii.

(** [arr.map(f)]; the callee is missing on anything but an array. *)
Fixpoint mapM {A B} (f : A -> result B) (l : list A) : result (list B) :=
  match l with
  | [] => Ok []
  | x :: rest => y <- f x ;; ys <- mapM f rest ;; Ok (y :: ys)
  end.

(** [arr.map((x, idx) => f(x, idx))], [idx] counting from [i]. *)
Fixpoint mapiM_from {A B} (i : nat) (f : nat -> A -> result B) (l : list A)
  : result (list B) :=
  match l with
  | [] => Ok []
  | x :: rest => y <- f i x ;; ys <- mapiM_from (S i) f rest ;; Ok (y :: ys)
  end.

Definition elements (v : value) : result (list value) :=
  match v with
  | VArr elems => Ok elems
  | _ => TypeError
  end.

(** [JSON.parse(JSON.stringify(v))] on values: a property whose value is
    [undefined] is omitted, an [undefined] array element is written
    [null], everything else is written and read back as it is. *)
Fixpoint json_roundtrip (v : value) : value :=
  match v with
  | VArr elems =>
      VArr (map (fun x => match x with
                          | VUndef => VNull
                          | _ => json_roundtrip x
                          end) elems)
  | VObj props =>
      VObj ((fix fields (l : list (string * value)) : list (string * value) :=
               match l with
               | [] => []
               | (k, VUndef) :: rest => fields rest
               | (k, x) :: rest => (k, json_roundtrip x) :: fields rest
               end) props)
  | _ => v
  end.

(** A value [JSON.parse] can produce: no [undefined] anywhere inside. *)
Fixpoint json_clean (v : value) : bool :=
  match v with
  | VUndef => false
  | VArr elems => forallb json_clean elems
  | VObj props =>
      (fix fields (l : list (string * value)) : bool :=
         match l with
         | [] => true
         | (_, x) :: rest => json_clean x && fields rest
         end) props
  | _ => true
  end.

(** [arr.includes(v)] for an array literal of strings. *)
Definition includes (lits : list string) (v : value) : bool :=
  existsb (is_str v) lits.

(** [elems.join(sep)]: [undefined] and [null] elements print as the
    empty string, every other element through [String(...)]. *)
Fixpoint join (sep : string) (elems : list value) : result string :=
  match elems with
  | [] => Ok EmptyString
  | x :: rest =>
      s <- match x with
           | VUndef | VNull => Ok EmptyString
           | _ => to_string x
           end ;;
      match rest with
      | [] => Ok s
      | _ :: _ => r <- join sep rest ;; Ok (s ++ sep ++ r)
      end
  end.

(** The characters of a string, each as a string of its own. *)
Fixpoint chars (s : string) : list value :=
  match s with
  | EmptyString => []
  | String c rest => VStr (String c EmptyString) :: chars rest
  end.

(** [Object.values(v)] for a truthy [v]: the property values of an
    object, the elements of an array, the characters of a string, and
    nothing for a number or a boolean. *)
Definition object_values (v : value) : list value :=
  match v with
  | VObj props => map snd props
  | VArr elems => elems
  | VStr s => chars s
  | _ => []
  end.

(** [v.slice(0, 30)]: defined on strings and arrays; any other value
    has no callable [slice]. *)
Definition slice30 (v : value) : result value :=
  match v with
  | VStr s => Ok (VStr (substring 0 30 s))
  | VArr elems => Ok (VArr (firstn 30 elems))
  | _ => TypeError
  end.

(** [s.replace('_', ' ')]: the first underscore becomes a space. *)
Fixpoint replace_underscore (s : string) : string :=
  match s with
  | EmptyString => EmptyString
  | String c rest =>
      if Ascii.eqb c "_" then String " " rest
      else String c (replace_underscore rest)
  end.

(** Values [String(...)] converts without calling into an object. *)
Definition primitive (v : value) : bool :=
  match v with
  | VArr _ | VObj _ => false
  | _ => true
  end.

(** A value read out of a parsed JSON document: clean, or [undefined]
    for a property that is not there. *)
Definition clean_or_undef (v : value) : Prop :=
  json_clean v = true \/ v = VUndef.

End JS.

(** ** WorkflowCanvas.jsx *)

Module Canvas.
Import JS.

(** Own keys of the [nodeTypes] table (every entry is [CustomNode]). *)
Definition nodeTypes : list string :=
  [ "trigger"; "action"; "condition"; "utility"; "control"; "http";
    "integration"; "script"; "log"; "webhook"; "default" ].

(** [nodeTypes] is an object literal, so a read that misses its own
    keys continues on [Object.prototype]; these are the names found
    there, each bound to a truthy value. *)
Definition object_prototype_keys : list string :=
  [ "constructor"; "hasOwnProperty"; "isPrototypeOf";
    "propertyIsEnumerable"; "toLocaleString"; "toString"; "valueOf";
    "__proto__"; "__defineGetter__"; "__defineSetter__";
    "__lookupGetter__"; "__lookupSetter__" ].

Definition mem (k : string) (l : list string) : bool :=
  existsb (String.eqb k) l.

(** Truth value of [nodeTypes[key]]. *)
Definition nodeTypes_has (key : string) : bool :=
  mem key nodeTypes || mem key object_prototype_keys.

(** The [data] object of a normalized node. *)
Record node_data : Type := mk_data {
  label : value;
  nodeType : value;
  config : value;
  params : value;
  integration_type_name : value;
  task : value;
  task_display_name : value
}.

(** A normalized node, as handed to React Flow. *)
Record node : Type := mk_node {
  node_id : string;
  node_type : value;
  data : node_data;
  node_position : value
}.

(** A processed edge. *)
Record edge : Type := mk_edge {
  edge_id : value;
  source : string;
  target : string;
  sourceHandle : value;
  edge_label : value
}.

Definition origin : value := VObj [("x", VNum 0); ("y", VNum 0)].

(** The callback of [rawNodes.map] (lines 85-103). *)
Definition normalize_node (n : value) : result node :=
  nodeType_ <- or_else (get n "type") (Ok (VStr "default")) ;;
  key <- to_string nodeType_ ;;
  let mappedType := if nodeTypes_has key then nodeType_ else VStr "default" in
  n_id <- get n "id" ;;
  id_ <- to_string n_id ;;
  d <- get n "data" ;;
  label_ <- or_else (or_else (get n "label") (Ok (get_opt d "label")))
                    (Ok (VStr "Untitled")) ;;
  nt <- or_else (get n "type") (Ok (get_opt d "nodeType")) ;;
  config_ <- or_else (or_else (get n "config") (Ok (get_opt d "config")))
                     (Ok (VObj [])) ;;
  params_ <- or_else (get n "params") (Ok (VObj [])) ;;
  itn <- get n "integration_type_name" ;;
  task_ <- get n "task" ;;
  tdn <- get n "task_display_name" ;;
  position_ <- or_else (get n "position") (Ok origin) ;;
  Ok {| node_id := id_;
        node_type := mappedType;
        data := {| label := label_;
                   nodeType := nt;
                   config := config_;
                   params := params_;
                   integration_type_name := itn;
                   task := task_;
                   task_display_name := tdn |};
        node_position := position_ |}.

(** [normalizedNodes.find(n => n.id === source)]. *)
Definition find_node (nodes : list node) (src : string) : option node :=
  find (fun n => String.eqb (node_id n) src) nodes.

(** [sourceNode?.data?.nodeType === 'condition' ||
     sourceNode?.type === 'control'] (line 110). *)
Definition isDecision (sourceNode : option node) : bool :=
  match sourceNode with
  | Some n => is_str (nodeType (data n)) "condition"
              || is_str (node_type n) "control"
  | None => false
  end.

(** The callback of [rawEdges.map] (lines 106-130). *)
Definition process_edge (normalizedNodes : list node) (idx : nat) (e : value)
  : result edge :=
  src <- or_else (get e "source") (get e "from") ;;
  source_ <- to_string src ;;
  tgt <- or_else (get e "target") (get e "to") ;;
  target_ <- to_string tgt ;;
  let decision := isDecision (find_node normalizedNodes source_) in
  handle0 <- get e "sourceHandle" ;;
  lbl <- get e "label" ;;
  handle1 <- (if decision && truthy lbl then
                s <- to_string lbl ;;
                let labelLower := toLowerCase s in
                Ok (if String.eqb labelLower "false" then VStr "false"
                    else if String.eqb labelLower "true" then VStr "true"
                    else handle0)
              else Ok handle0) ;;
  cond <- get e "condition" ;;
  let cv := get_opt cond "value" in
  let handle2 :=
    if decision && negb (truthy handle1) && truthy cv then cv else handle1 in
  eid <- or_else (get e "id") (Ok (VStr ("e-" ++ string_of_nat idx))) ;;
  label_ <- or_else (get e "label")
              (if truthy cv then s <- to_string cv ;; Ok (VStr (toUpperCase s))
               else Ok (VStr EmptyString)) ;;
  Ok {| edge_id := eid;
        source := source_;
        target := target_;
        sourceHandle := handle2;
        edge_label := label_ |}.

(** Shape detection (lines 72-82): the raw node and edge arrays. *)
Definition raw_lists (graphData : value) : result (value * value) :=
  sel <- and_then (get graphData "workflows")
                  (wf <- get graphData "workflows" ;; index0 wf) ;;
  if truthy sel then
    wf <- get graphData "workflows" ;;
    first <- index0 wf ;;
    w <- get first "workflow_data" ;;
    rawNodes <- or_else (get w "nodes") (Ok (VArr [])) ;;
    rawEdges <- or_else (get w "connections") (Ok (VArr [])) ;;
    Ok (rawNodes, rawEdges)
  else
    rawNodes <- or_else (get graphData "nodes") (Ok (VArr [])) ;;
    rawEdges <- or_else (get graphData "edges") (Ok (VArr [])) ;;
    Ok (rawNodes, rawEdges).

(** The canonical graph: [normalizedNodes] and [processedEdges]. *)
Record graph : Type := mk_graph {
  nodes : list node;
  edges : list edge
}.

(** The normalization part of the effect (lines 72-130), for a truthy
    [graphData]. *)
Definition normalize (graphData : value) : result graph :=
  raw <- raw_lists graphData ;;
  ns <- elements (fst raw) ;;
  normalizedNodes <- mapM normalize_node ns ;;
  es <- elements (snd raw) ;;
  processedEdges <- mapiM_from 0 (process_edge normalizedNodes) es ;;
  Ok {| nodes := normalizedNodes; edges := processedEdges |}.


(** Raw nodes and edges that are objects with primitive (possibly
    missing) identifier, kind, endpoint, label and condition value. *)
Definition plain_node (n : value) : bool :=
  match n with
  | VObj props =>
      primitive (lookup "id" props) && primitive (lookup "type" props)
  | _ => false
  end.

Definition plain_edge (e : value) : bool :=
  match e with
  | VObj props =>
      primitive (lookup "source" props) && primitive (lookup "from" props)
      && primitive (lookup "target" props) && primitive (lookup "to" props)
      && primitive (lookup "label" props)
      && primitive (get_opt (lookup "condition" props) "value")
  | _ => false
  end.

(** The branch of a processed edge agrees with its label: where the
    lookup in [ns] makes the source a decision node and the label is
    truthy, a label reading [true] or [false] is the branch. *)
Definition label_agrees (ns : list node) (e : edge) : Prop :=
  isDecision (find_node ns (source e)) = true ->
  truthy (edge_label e) = true ->
  exists s, to_string (edge_label e) = Ok s /\
            (toLowerCase s = "true" -> sourceHandle e = VStr "true") /\
            (toLowerCase s = "false" -> sourceHandle e = VStr "false").

(** *** getLayoutedElements (lines 21-62) *)

(** [node.data?.nodeType === 'condition' || node.type === 'control']
    (lines 34 and 46). *)
Definition isDiamond (n : node) : bool :=
  is_str (nodeType (data n)) "condition" || is_str (node_type n) "control".

(** Width and height registered with dagre for a node. *)
Definition footprint (n : node) : Z * Z :=
  (if isDiamond n then 300 else 250, if isDiamond n then 150 else 120)%Z.

(** A node after layout: the spread of the normalized node, with
    [position] replaced and the two orientations added. *)
Record layouted_node : Type := mk_layouted {
  l_id : string;
  l_type : value;
  l_data : node_data;
  targetPosition : string;
  sourcePosition : string;
  position : Z * Z
}.

Record canvas_state : Type := mk_state {
  st_nodes : list layouted_node;
  st_edges : list edge
}.

Section Layout.

(** The dagre library: from the graph settings ([rankdir], [ranksep],
    [nodesep]), the registered nodes with their footprints and the
    registered edges, the centre it assigns to a node id. *)
Variable dagre_layout :
  string -> Z -> Z -> list (string * (Z * Z)) -> list (string * string) ->
  string -> Z * Z.

Definition getLayoutedElements (ns : list node) (es : list edge)
    (direction : string) : list layouted_node * list edge :=
  let isHorizontal := String.eqb direction "LR" in
  let centre :=
    dagre_layout direction 200%Z 100%Z
      (map (fun n => (node_id n, footprint n)) ns)
      (map (fun e => (source e, target e)) es) in
  let layoutedNodes :=
    map (fun n =>
           let nodeWithPosition := centre (node_id n) in
           let w := fst (footprint n) in
           let h := snd (footprint n) in
           {| l_id := node_id n;
              l_type := node_type n;
              l_data := data n;
              targetPosition := if isHorizontal then "left" else "top";
              sourcePosition := if isHorizontal then "right" else "bottom";
              position := (fst nodeWithPosition - w / 2,
                           snd nodeWithPosition - h / 2)%Z |}) ns in
  (layoutedNodes, es).

(** The effect of lines 69-140 on the component state. *)
Definition effect (graphData : value) (st : canvas_state)
  : result canvas_state :=
  if truthy graphData then
    g <- normalize graphData ;;
    let out := getLayoutedElements (nodes g) (edges g) "LR" in
    Ok {| st_nodes := fst out; st_edges := snd out |}
  else Ok st.

End Layout.

(** *** The canonical graph as a JavaScript object *)

(** The object literal of lines 89-102. *)
Definition node_to_value (n : node) : value :=
  VObj [ ("id", VStr (node_id n));
         ("type", node_type n);
         ("data", VObj [ ("label", label (data n));
                         ("nodeType", nodeType (data n));
                         ("config", config (data n));
                         ("params", params (data n));
                         ("integration_type_name",
                          integration_type_name (data n));
                         ("task", task (data n));
                         ("task_display_name", task_display_name (data n)) ]);
         ("position", node_position n) ].


(** What normalizing the serialized form of a normalized node yields:
    the kind stands in [data.nodeType] as well, the parameter map is
    empty and the three hint fields are [undefined]. *)
Definition renormalized (n : node) : node :=
  {| node_id := node_id n;
     node_type := node_type n;
     data := {| label := label (data n);
                nodeType := node_type n;
                config := config (data n);
                params := VObj [];
                integration_type_name := VUndef;
                task := VUndef;
                task_display_name := VUndef |};
     node_position := node_position n |}.


End Canvas.

(** ** CustomNode.jsx *)

Module CustomNode.
Import JS.
Local Open Scope Z_scope.
Local Open Scope string_scope.

(** Ids of the source handles a node renders (lines 145-156): [true],
    [false] and an unnamed one for a condition or switch node, the
    unnamed one alone otherwise. *)
Definition source_handles (nodeType : value) : list (option string) :=
  if is_str nodeType "condition" || is_str nodeType "switch"
  then [Some "true"; Some "false"; None]
  else [None].

(** Width and height of the rendered node (lines 94-101). *)
Definition dimensions (nodeType : value) : Z * Z :=
  if includes ["condition"; "switch"] nodeType
  then (250, 160)%Z
  else (240, 110)%Z.

(** The icons of [lucide-react] that [NodeIcon] draws. *)
Inductive icon : Type :=
| Link | ScrollText | Globe | Settings2 | Webhook | Workflow
| Split | Target | Repeat | BarChart2 | Save | Zap | ShieldAlert
| Clock | SquarePen | Plug | Play | Activity | Wrench.

(** [NodeIcon] (lines 10-45): the icon and its colour class; the
    [switch] compares with [===], so only a string selects a case. *)
Definition NodeIcon (type : value) : icon * string :=
  match type with
  | VStr t =>
      if String.eqb t "integration" || String.eqb t "integration_task"
      then (Link, "text-blue-400")
      else if String.eqb t "script" then (ScrollText, "text-yellow-400")
      else if String.eqb t "http" || String.eqb t "http_request"
      then (Globe, "text-green-400")
      else if String.eqb t "parameter" then (Settings2, "text-gray-400")
      else if String.eqb t "webhook" then (Webhook, "text-pink-400")
      else if String.eqb t "workflow" then (Workflow, "text-indigo-400")
      else if String.eqb t "condition" then (Split, "text-orange-400")
      else if String.eqb t "switch" then (Target, "text-red-400")
      else if String.eqb t "loop" then (Repeat, "text-blue-300")
      else if String.eqb t "variable" then (BarChart2, "text-purple-400")
      else if String.eqb t "cache" then (Save, "text-cyan-400")
      else if String.eqb t "parallel" then (Zap, "text-yellow-300")
      else if String.eqb t "try_catch" then (ShieldAlert, "text-red-500")
      else if String.eqb t "delay" then (Clock, "text-gray-300")
      else if String.eqb t "log" then (SquarePen, "text-white")
      else if String.eqb t "mcp_server" then (Plug, "text-green-300")
      else if String.eqb t "trigger" then (Play, "text-green-500")
      else if String.eqb t "action" then (Activity, "text-blue-500")
      else (Wrench, "text-gray-500")
  | _ => (Wrench, "text-gray-500")
  end.

(** The SVG element [NodeShape] returns. *)
Inductive path_cmd : Type :=
| MoveTo (x y : Q)
| LineTo (x y : Q)
| QuadTo (cx cy x y : Q)
| ClosePath.

Inductive outline : Type :=
| Rect (x y w h rx ry : Q)
| Polygon (points : list (Q * Q))
| Path (d : list path_cmd).

(** The stroke colour of [NodeShape] (lines 50-56): four tests in a
    row, each overwriting the colour chosen so far. *)
Definition stroke (type : value) : string :=
  let stroke := "white" in
  let stroke :=
    if includes ["trigger"; "webhook"] type then "#22c55e" else stroke in
  let stroke :=
    if includes ["condition"; "switch"] type then "#f97316" else stroke in
  let stroke := if includes ["log"] type then "#a855f7" else stroke in
  let stroke :=
    if includes ["action"; "http_request"; "script"] type
    then "#60a5fa" else stroke in
  stroke.

(** The outline of [NodeShape] (lines 59-87): a pill, a diamond, a
    document with a curved lower edge, or a rectangle. *)
Definition NodeShape (type : value) (width height : Q) : outline :=
  if includes ["trigger"; "webhook"] type then
    let r := (height / 2)%Q in
    Rect 2 2 (width - 4) (height - 4) r r
  else if includes ["condition"; "switch"] type then
    let halfW := (width / 2)%Q in
    let halfH := (height / 2)%Q in
    Polygon [ (halfW, 2%Q); ((width - 2)%Q, halfH);
              (halfW, (height - 2)%Q); (2%Q, halfH) ]
  else if includes ["log"] type then
    Path [ MoveTo 2 2; LineTo (width - 2) 2;
           LineTo (width - 2) (height - 15);
           QuadTo (width / 2) (height + 5) 2 (height - 15);
           ClosePath ]
  else Rect 2 2 (width - 4) (height - 4) 4 4.

(** The line under the label (line 123):
    [data.integration_type_name || nodeType?.replace('_', ' ')].
    The optional call guards [undefined] and [null] only; any other
    value that is not a string has no [replace] to call. *)
Definition subtitle (d : Canvas.node_data) : result value :=
  if truthy (Canvas.integration_type_name d)
  then Ok (Canvas.integration_type_name d)
  else match Canvas.nodeType d with
       | VUndef | VNull => Ok VUndef
       | VStr s => Ok (VStr (replace_underscore s))
       | _ => TypeError
       end.

(** What the block under the subtitle shows (lines 127-139). *)
Inductive detail : Type :=
| Hidden
| TaskName (v : value)
| Url (v : value)
| Code (v : value)
| Summary (text : string).

(** The block of lines 127-139.  The [data] object of a normalized
    node has no [code] property, so [data.code] reads [undefined] and
    the script branch shows [data.config.code]. *)
Definition details (d : Canvas.node_data) : result detail :=
  let nodeType := Canvas.nodeType d in
  if includes ["trigger"; "webhook"; "condition"; "switch"] nodeType
  then Ok Hidden
  else
    let task_name := pick (Canvas.task_display_name d) (Canvas.task d) in
    let url := get_opt (Canvas.config d) "url" in
    let code := pick VUndef (get_opt (Canvas.config d) "code") in
    if includes ["integration"; "integration_task"] nodeType
       && truthy task_name
    then Ok (TaskName task_name)
    else if includes ["http"; "http_request"] nodeType && truthy url
    then Ok (Url url)
    else if is_str nodeType "script" && truthy code
    then v <- slice30 code ;; Ok (Code v)
    else
      let shown := pick (pick (Canvas.config d) (Canvas.params d)) (VObj []) in
      joined <- join ", " (object_values shown) ;;
      Ok (Summary (substring 0 30 joined)).

End CustomNode.

(** ** WorkflowConsole.jsx *)

Module Console.
Import JS.

(** [downloadJson] (lines 86-97): nothing is written for a falsy
    [graphData]; otherwise the file holds
    [JSON.stringify(graphData, null, 2)], represented by the value that
    parsing the file yields. *)
Definition downloadJson (graphData : value) : option value :=
  if truthy graphData then Some (json_roundtrip graphData) else None.

(** The graph [loadSampleGraph] installs (lines 72-82). *)
Definition loadSampleGraph : value :=
  VObj [ ("nodes", VArr [
            VObj [ ("id", VStr "1"); ("type", VStr "trigger");
                   ("data", VObj [ ("label", VStr "Start Trigger");
                                   ("nodeType", VStr "webhook") ]);
                   ("position", VObj [ ("x", VNum 0); ("y", VNum 0) ]) ];
            VObj [ ("id", VStr "2"); ("type", VStr "action");
                   ("data", VObj [ ("label", VStr "Fetch Data");
                                   ("nodeType", VStr "http_request") ]);
                   ("position", VObj [ ("x", VNum 200); ("y", VNum 0) ]) ];
            VObj [ ("id", VStr "3"); ("type", VStr "utility");
                   ("data", VObj [ ("label", VStr "Log Info");
                                   ("nodeType", VStr "log") ]);
                   ("position", VObj [ ("x", VNum 400); ("y", VNum 0) ]) ] ]);
         ("edges", VArr [
            VObj [ ("id", VStr "e1-2"); ("source", VStr "1");
                   ("target", VStr "2") ];
            VObj [ ("id", VStr "e2-3"); ("source", VStr "2");
                   ("target", VStr "3") ] ]) ].

(** *** Component state and [handleSubmit] (lines 5-63) *)

(** The values [status] takes (line 6). *)
Inductive run_status : Type :=
| idle | planning | executing | success | error.

(** An entry of [messages]: [{ type, content }]. *)
Record message : Type := mk_message {
  msg_type : string;
  msg_content : string
}.

(** An entry of [executionLogs]: [{ type, content, timestamp }]; the
    error entries carry no timestamp. *)
Record log_entry : Type := mk_log {
  log_type : string;
  log_content : string;
  timestamp : option string
}.

(** The state hooks of the component (lines 5-9). *)
Record console : Type := mk_console {
  prompt : string;
  status : run_status;
  messages : list message;
  graphData : value;
  executionLogs : list log_entry
}.

Definition initial : console :=
  {| prompt := EmptyString;
     status := idle;
     messages := [];
     graphData := VNull;
     executionLogs := [] |}.

(** How the request of lines 26-34 ends: [fetch] rejects, the response
    is not [ok], [response.json()] rejects, or a body is parsed. *)
Inductive fetch_outcome : Type :=
| FetchRejected (reason : string)
| ResponseNotOk
| JsonRejected (reason : string)
| JsonBody (data : value).

(** The two places of the [try] block where a [TypeError] can arise. *)
Inductive throw_site : Type :=
| ReadResults
| CallMap.

Section HandleSubmit.

(** [String.prototype.trim], [JSON.stringify] on a message that is not
    a string, the clock read for the log entry at a position, and the
    engine's message for a [TypeError]. *)
Variable trim : string -> string.
Variable stringify : value -> string.
Variable toLocaleTimeString : nat -> string.
Variable type_error_message : throw_site -> string.

(** The [catch] block (lines 58-62). *)
Definition catch (reason : string) (st : console) : console :=
  {| prompt := prompt st;
     status := error;
     messages := messages st;
     graphData := graphData st;
     executionLogs :=
       executionLogs st ++
       [ {| log_type := "error";
            log_content := "Connection Error: " ++ reason;
            timestamp := None |} ] |}.

(** [rawMessages.map(...)] (lines 45-49), positions counting from [i]. *)
Fixpoint newLogs (i : nat) (rawMessages : list value) : list log_entry :=
  match rawMessages with
  | [] => []
  | msg :: rest =>
      {| log_type := "agent";
         log_content := match msg with
                        | VStr s => s
                        | _ => stringify msg
                        end;
         timestamp := Some (toLocaleTimeString i) |}
      :: newLogs (S i) rest
  end.

(** Lines 13-22: nothing happens for a blank prompt; otherwise the
    state is reset for the new run. *)
Definition submit (st : console) : option console :=
  if String.eqb (trim (prompt st)) EmptyString then None
  else Some {| prompt := EmptyString;
               status := planning;
               messages :=
                 messages st ++
                 [ {| msg_type := "user"; msg_content := prompt st |} ];
               graphData := VNull;
               executionLogs := [] |}.

(** The body of the request (line 29). *)
Definition request_body (st : console) : value :=
  VObj [("prompt", VStr (prompt st))].

(** [data.results && data.results.graph] (line 37). *)
Definition response_graph (data : value) : result value :=
  and_then (get data "results") (r <- get data "results" ;; get r "graph").

(** [data.messages || []] and the array [map] is called on (lines
    42-45). *)
Definition response_messages (data : value) : result (list value) :=
  m <- or_else (get data "messages") (Ok (VArr [])) ;; elements m.

(** Lines 24-62, once the request has ended. *)
Definition settle (o : fetch_outcome) (st : console) : console :=
  match o with
  | FetchRejected reason => catch reason st
  | ResponseNotOk => catch "API Request Failed" st
  | JsonRejected reason => catch reason st
  | JsonBody data =>
      match response_graph data with
      | TypeError => catch (type_error_message ReadResults) st
      | Ok sel =>
          if truthy sel then
            let st1 := {| prompt := prompt st;
                          status := executing;
                          messages := messages st;
                          graphData := sel;
                          executionLogs := executionLogs st |} in
            match response_messages data with
            | TypeError => catch (type_error_message CallMap) st1
            | Ok rawMessages =>
                {| prompt := prompt st1;
                   status := success;
                   messages := messages st1;
                   graphData := graphData st1;
                   executionLogs := newLogs 0 rawMessages |}
            end
          else
            {| prompt := prompt st;
               status := error;
               messages := messages st;
               graphData := graphData st;
               executionLogs :=
                 [ {| log_type := "error";
                      log_content := "Workflow failed or no graph returned.";
                      timestamp := None |} ] |}
      end
  end.

(** [handleSubmit] from the click to the end of the request. *)
Definition handleSubmit (o : fetch_outcome) (st : console) : console :=
  match submit st with
  | None => st
  | Some st1 => settle o st1
  end.

(** The input is disabled while a run is under way (line 191). *)
Definition input_disabled (st : console) : bool :=
  match status st with
  | planning | executing => true
  | _ => false
  end.

(** The submit button (line 195). *)
Definition button_disabled (st : console) : bool :=
  input_disabled st || String.eqb (trim (prompt st)) EmptyString.

End HandleSubmit.

(** The canvas and the download button are rendered for a truthy
    [graphData] (lines 110 and 151). *)
Definition canvas_shown (st : console) : bool := truthy (graphData st).

(** The click handler [loadSampleGraph] (lines 70-84). *)
Definition loadSample (st : console) : console :=
  {| prompt := prompt st;
     status := success;
     messages := messages st;
     graphData := loadSampleGraph;
     executionLogs := executionLogs st |}.

End Console.

(** ** Sample inputs *)

Module Samples.
Import JS Canvas.
Local Open Scope string_scope.

(** A condition node [1] followed by an action node [2]. *)
Definition decision_nodes : value :=
  VArr [ VObj [("id", VNum 1); ("type", VStr "condition")];
         VObj [("id", VNum 2); ("type", VStr "action")] ].

Definition condition_node : node :=
  {| node_id := "1";
     node_type := VStr "condition";
     data := {| label := VStr "Untitled";
                nodeType := VStr "condition";
                config := VObj [];
                params := VObj [];
                integration_type_name := VUndef;
                task := VUndef;
                task_display_name := VUndef |};
     node_position := origin |}.

Definition action_node : node :=
  {| node_id := "2";
     node_type := VStr "action";
     data := {| label := VStr "Untitled";
                nodeType := VStr "action";
                config := VObj [];
                params := VObj [];
                integration_type_name := VUndef;
                task := VUndef;
                task_display_name := VUndef |};
     node_position := origin |}.

(** An edge leaving the condition node with the handle [true] and the
    label [False]. *)
Definition conflicting_edge : value :=
  VObj [("source", VNum 1); ("target", VNum 2);
        ("sourceHandle", VStr "true"); ("label", VStr "False")].

(** A second node with the id of the condition node. *)
Definition duplicate_node : node :=
  {| node_id := "1";
     node_type := VStr "action";
     data := data action_node;
     node_position := origin |}.



(** A graph whose nodes and edges miss most of their fields. *)
Definition sparse_graph : value :=
  VObj [("nodes", VArr [VObj []; VObj [("id", VNum 2)]]);
        ("edges", VArr [VObj []; VObj [("from", VNum 2)]])].

(** A raw integration node with config and parameters. *)
Definition nodes_param_sample : value :=
  VObj [("id", VNum 3); ("type", VStr "integration");
        ("config", VObj [("region", VStr "eu")]);
        ("params", VObj [("ip", VStr "1.2.3.4")])].

(** Stand-ins for the browser functions the console depends on. *)
Definition sample_trim (s : string) : string := s.
Definition sample_stringify (v : value) : string := "{}".
Definition sample_clock (i : nat) : string := "12:00:00".
Definition sample_message (site : Console.throw_site) : string :=
  "TypeError".

(** A console holding a typed prompt. *)
Definition typed_console : Console.console :=
  {| Console.prompt := "restart the database";
     Console.status := Console.idle;
     Console.messages := [];
     Console.graphData := VNull;
     Console.executionLogs := [] |}.

(** A body of the service: a graph and two messages. *)
Definition sample_body : value :=
  VObj [("results", VObj [("graph", Console.loadSampleGraph)]);
        ("messages", VArr [VStr "planned"; VObj [("step", VNum 1)]])].


(** A raw node whose kind is given under [data] only. *)
Definition nested_condition : value :=
  VObj [("id", VNum 1); ("data", VObj [("nodeType", VStr "condition")])].

Definition nested_control : value :=
  VObj [("id", VNum 1); ("data", VObj [("nodeType", VStr "control")])].

(** A layout that centres every node at the origin. *)
Definition flat_layout (rankdir : string) (ranksep nodesep : Z)
    (ns : list (string * (Z * Z))) (es : list (string * string))
    (id : string) : Z * Z := (0, 0)%Z.

(** An edge leaving the condition node with nothing to resolve a
    branch from. *)
Definition bare_edge : value :=
  VObj [("source", VNum 1); ("target", VNum 2)].

End Samples.

(** ** Properties *)

Import JS Canvas CustomNode Console Samples.

(** *** The error monad and the list traversals *)

Lemma bind_ok {A B} (r : result A) (k : A -> result B) (b : B) :
  bind r k = Ok b -> exists a, r = Ok a /\ k a = Ok b.
Proof.
  destruct r as [a|]; simpl; intros H; [exists a; split; auto | discriminate].
Qed.

Ltac inv_bind H :=
  let a := fresh "x" in
  let Ha := fresh "E" in
  apply bind_ok in H; destruct H as (a & Ha & H).

Tactic Notation "bind_inv" hyp(H) "as" ident(a) ident(Ha) :=
  apply bind_ok in H; destruct H as (a & Ha & H).

Lemma or_else_ok (a b : result value) (v : value) :
  or_else a b = Ok v ->
  exists x, a = Ok x /\ (if truthy x then v = x else b = Ok v).
Proof.
  unfold or_else; intros H; inv_bind H.
  exists x; split; auto.
  destruct (truthy x); congruence.
Qed.

Lemma or_else_truthy (a b : result value) (x : value) :
  a = Ok x -> truthy x = true -> or_else a b = Ok x.
Proof. intros -> Hx; unfold or_else; simpl; now rewrite Hx. Qed.

Lemma or_else_falsy (a b : result value) (x : value) :
  a = Ok x -> truthy x = false -> or_else a b = b.
Proof. intros -> Hx; unfold or_else; simpl; now rewrite Hx. Qed.


Lemma mapM_length {A B} (f : A -> result B) (l : list A) (l' : list B) :
  mapM f l = Ok l' -> List.length l' = List.length l.
Proof.
  revert l'; induction l as [|x rest IH]; simpl; intros l' H.
  - now inversion H.
  - inv_bind H; inv_bind H; inversion H; subst; simpl.
    f_equal; auto.
Qed.

Lemma mapM_nth {A B} (f : A -> result B) (l : list A) (l' : list B) :
  mapM f l = Ok l' ->
  forall i x, nth_error l i = Some x ->
  exists y, nth_error l' i = Some y /\ f x = Ok y.
Proof.
  revert l'; induction l as [|a rest IH]; simpl; intros l' H i x Hi.
  - destruct i; discriminate.
  - inv_bind H; inv_bind H; inversion H; subst.
    destruct i as [|i]; simpl in *.
    + inversion Hi; subst; eauto.
    + eauto.
Qed.

Lemma mapiM_from_length {A B} (f : nat -> A -> result B) (l : list A) :
  forall i l', mapiM_from i f l = Ok l' -> List.length l' = List.length l.
Proof.
  induction l as [|x rest IH]; simpl; intros i l' H.
  - now inversion H.
  - inv_bind H; inv_bind H; inversion H; subst; simpl.
    f_equal; eauto.
Qed.

Lemma mapiM_from_nth {A B} (f : nat -> A -> result B) (l : list A) :
  forall i l', mapiM_from i f l = Ok l' ->
  forall j x, nth_error l j = Some x ->
  exists y, nth_error l' j = Some y /\ f (i + j) x = Ok y.
Proof.
  induction l as [|a rest IH]; simpl; intros i l' H j x Hj.
  - destruct j; discriminate.
  - inv_bind H; inv_bind H; inversion H; subst.
    destruct j as [|j]; simpl in *.
    + inversion Hj; subst. rewrite Nat.add_0_r; eauto.
    + rewrite <- plus_n_Sm. apply (IH (S i)); auto.
Qed.

(** What a successful [normalize] is made of. *)
Lemma normalize_ok (g : value) (cg : graph) :
  normalize g = Ok cg ->
  exists ns es,
    raw_lists g = Ok (VArr ns, VArr es) /\
    mapM normalize_node ns = Ok (nodes cg) /\
    mapiM_from 0 (process_edge (nodes cg)) es = Ok (edges cg).
Proof.
  unfold normalize; intros H.
  inv_bind H. destruct x as [rn re]; simpl in H.
  inv_bind H. inv_bind H. inv_bind H. inv_bind H.
  inversion H; subst; simpl.
  destruct rn; try discriminate. destruct re; try discriminate.
  simpl in *. inversion E0; inversion E2; subst.
  eauto.
Qed.

(** *** Shape detection *)


(** C2 (defect in the code).  Normalization does raise on a malformed
    input: for the nested shape whose first workflow record lacks
    [workflow_data], [w] is [undefined] and reading [w.nodes] throws a
    [TypeError]; no canonical graph is produced. *)
Theorem normalize_raises_without_workflow_data :
  normalize (VObj [("workflows", VArr [VObj []])]) = TypeError.
Proof. reflexivity. Qed.




(** *** Node normalization *)

(** The resolved kind of a node: the tag itself when [nodeTypes[tag]]
    is truthy, the generic kind otherwise; and the default label. *)
Lemma normalize_node_kind (n : value) (c : node) :
  normalize_node n = Ok c ->
  exists tag key,
    get n "type" = Ok tag /\
    to_string (if truthy tag then tag else VStr "default") = Ok key /\
    node_type c = (if truthy tag && nodeTypes_has key
                   then tag else VStr "default").
Proof.
  unfold normalize_node; intros H.
  bind_inv H as nt Hnt.
  apply or_else_ok in Hnt. destruct Hnt as (tag & Ht & Hsel).
  bind_inv H as key Hkey. repeat (inv_bind H). inversion H; subst; simpl.
  exists tag, key. split; [assumption|].
  destruct (truthy tag); subst.
  - split; [assumption|]. simpl. reflexivity.
  - inversion Hsel; subst. split; [assumption|].
    simpl in Hkey. inversion Hkey; subst. reflexivity.
Qed.

Lemma normalize_node_recognized (n : value) (c : node) (t : string) :
  In t nodeTypes ->
  get n "type" = Ok (VStr t) ->
  normalize_node n = Ok c ->
  node_type c = VStr t.
Proof.
  intros Hin Ht H.
  destruct (normalize_node_kind n c H) as (tag & key & Ht' & Hk & Hc).
  rewrite Ht in Ht'; inversion Ht'; subst tag.
  assert (Htr : truthy (VStr t) = true).
  { simpl in Hin.
    repeat (destruct Hin as [<- | Hin]; [reflexivity|]). contradiction. }
  rewrite Htr in *. simpl in Hk. inversion Hk; subst key.
  rewrite Hc. simpl.
  assert (Hm : mem t nodeTypes = true).
  { unfold mem. apply existsb_exists. exists t. split; [assumption|].
    apply String.eqb_refl. }
  unfold nodeTypes_has. now rewrite Hm.
Qed.

Lemma normalize_node_absent_kind (n tag : value) (c : node) :
  get n "type" = Ok tag ->
  truthy tag = false ->
  normalize_node n = Ok c ->
  node_type c = VStr "default".
Proof.
  intros Ht Hf H.
  destruct (normalize_node_kind n c H) as (tag' & key & Ht' & _ & Hc).
  rewrite Ht in Ht'; inversion Ht'; subst tag'.
  now rewrite Hc, Hf.
Qed.

Lemma normalize_node_untitled (n l d : value) (c : node) :
  get n "label" = Ok l -> truthy l = false ->
  get n "data" = Ok d -> truthy (get_opt d "label") = false ->
  normalize_node n = Ok c ->
  label (data c) = VStr "Untitled".
Proof.
  intros Hl Fl Hd Fd H. unfold normalize_node in H.
  bind_inv H as nt Hnt. bind_inv H as key Hkey.
  bind_inv H as i Hi. bind_inv H as si Hsi.
  bind_inv H as d' Hd'. bind_inv H as l' Hl'.
  repeat (inv_bind H). inversion H; subst; simpl.
  rewrite Hd in Hd'; inversion Hd'; subst.
  unfold or_else in Hl'. rewrite Hl in Hl'; simpl in Hl'.
  rewrite Fl in Hl'; simpl in Hl'. rewrite Fd in Hl'. now inversion Hl'.
Qed.

(** C5 (defect in the code).  An unrecognized kind tag does not always
    resolve to the generic kind: [nodeTypes[nodeType]] also finds the
    members [nodeTypes] inherits from [Object.prototype], so the tag
    [constructor], which is not one of the recognized kinds, is kept as
    the node's kind. *)
Theorem inherited_name_kept_as_kind :
  let n := VObj [("id", VNum 1); ("type", VStr "constructor")] in
  mem "constructor" nodeTypes = false /\
  exists c, normalize_node n = Ok c /\
            node_type c = VStr "constructor" /\
            node_type c <> VStr "default".
Proof.
  simpl. split; [reflexivity|].
  eexists. split; [reflexivity|]. simpl. split; [reflexivity|discriminate].
Qed.

(** *** Edge endpoints *)

(** C6 (defect in the code).  With both endpoint pairs present, the
    [source/target] pair is not always the one taken: [||] passes over
    a [source] that is present but falsy, such as the numeric id [0],
    and the edge is attached to the [from] endpoint instead. *)
Theorem falsy_source_replaced_by_from :
  let e := VObj [("source", VNum 0); ("target", VNum 1);
                 ("from", VNum 2); ("to", VNum 3)] in
  exists ce, process_edge [] 0 e = Ok ce /\
             source ce = "2" /\ target ce = "1".
Proof. simpl. eexists. split; [reflexivity|]. split; reflexivity. Qed.

(** *** Edge processing *)

(** What a successful [process_edge] is made of. *)
Lemma process_edge_ok (ns : list node) (idx : nat) (e : value) (ce : edge) :
  process_edge ns idx e = Ok ce ->
  exists src tgt h0 l cond h1,
    or_else (get e "source") (get e "from") = Ok src /\
    to_string src = Ok (source ce) /\
    or_else (get e "target") (get e "to") = Ok tgt /\
    to_string tgt = Ok (target ce) /\
    get e "sourceHandle" = Ok h0 /\
    get e "label" = Ok l /\
    get e "condition" = Ok cond /\
    (if isDecision (find_node ns (source ce)) && truthy l then
       exists s, to_string l = Ok s /\
                 h1 = (if String.eqb (toLowerCase s) "false" then VStr "false"
                       else if String.eqb (toLowerCase s) "true"
                            then VStr "true"
                            else h0)
     else h1 = h0) /\
    sourceHandle ce =
      (if isDecision (find_node ns (source ce)) && negb (truthy h1)
          && truthy (get_opt cond "value")
       then get_opt cond "value" else h1) /\
    or_else (get e "id") (Ok (VStr ("e-" ++ string_of_nat idx)))
      = Ok (edge_id ce) /\
    or_else (get e "label")
      (if truthy (get_opt cond "value")
       then s <- to_string (get_opt cond "value") ;; Ok (VStr (toUpperCase s))
       else Ok (VStr EmptyString))
      = Ok (edge_label ce).
Proof.
  unfold process_edge; intros H.
  bind_inv H as src Hsrc. bind_inv H as source_ Hsource.
  bind_inv H as tgt Htgt. bind_inv H as target_ Htarget.
  bind_inv H as h0 Hh0. bind_inv H as l Hl.
  bind_inv H as h1 Hh1. bind_inv H as cond Hcond.
  bind_inv H as eid Heid. bind_inv H as label_ Hlabel.
  inversion H; subst; simpl.
  exists src, tgt, h0, l, cond, h1.
  repeat (split; [assumption|]).
  split.
  - destruct (isDecision (find_node ns source_) && truthy l).
    + bind_inv Hh1 as s Hs. exists s. split; [assumption|]. now inversion Hh1.
    + now inversion Hh1.
  - repeat (split; [reflexivity || assumption|]). assumption.
Qed.

(** C1, as the claim states it, fails: on an edge leaving a condition
    node with the explicit handle [true] and the label [False], the
    processed edge carries the branch [false]. *)
Lemma explicit_handle_overridden_by_label :
  ~ (forall ns idx e ce h l s,
        process_edge ns idx e = Ok ce ->
        isDecision (find_node ns (source ce)) = true ->
        get e "sourceHandle" = Ok h -> truthy h = true ->
        get e "label" = Ok l -> to_string l = Ok s ->
        toLowerCase s = "true" \/ toLowerCase s = "false" ->
        VStr (toLowerCase s) <> h ->
        sourceHandle ce = h).
Proof.
  intros H.
  assert (Hbad : VStr "false" = VStr "true").
  { apply (H [condition_node; action_node] 0 conflicting_edge _
             (VStr "true") (VStr "False") "False" eq_refl eq_refl
             eq_refl eq_refl eq_refl eq_refl).
    - right; reflexivity.
    - discriminate. }
  discriminate Hbad.
Qed.

(** C1 (amended).  On an edge leaving a decision-kind node, a label
    whose case-insensitive value is [true] or [false] decides the
    branch, whatever explicit handle the edge carries; the explicit
    handle is the branch when the label is missing or is neither
    [true] nor [false], where it precedes [condition.value]. *)
Theorem label_overrides_explicit_handle
    (ns : list node) (idx : nat) (e : value) (ce : edge) (l h : value) :
  process_edge ns idx e = Ok ce ->
  isDecision (find_node ns (source ce)) = true ->
  get e "label" = Ok l ->
  get e "sourceHandle" = Ok h ->
  (forall s, truthy l = true -> to_string l = Ok s ->
             toLowerCase s = "true" -> sourceHandle ce = VStr "true") /\
  (forall s, truthy l = true -> to_string l = Ok s ->
             toLowerCase s = "false" -> sourceHandle ce = VStr "false") /\
  ((truthy l = false \/
    exists s, to_string l = Ok s /\
              toLowerCase s <> "true" /\ toLowerCase s <> "false") ->
   truthy h = true -> sourceHandle ce = h).
Proof.
  intros H Hdec Hl Hh.
  destruct (process_edge_ok _ _ _ _ H)
    as (src & tgt & h0 & l' & cond & h1 & _ & _ & _ & _ & Hh0 & Hl' & _
        & Hh1 & Hsh & _).
  rewrite Hl in Hl'; inversion Hl'; subst l'.
  rewrite Hh in Hh0; inversion Hh0; subst h0.
  rewrite Hdec in *. simpl in Hh1, Hsh.
  split; [|split].
  - intros s Tl Hs Hlow. rewrite Tl in Hh1.
    destruct Hh1 as (s' & Hs' & ->).
    rewrite Hs in Hs'; inversion Hs'; subst s'.
    rewrite Hsh, Hlow. reflexivity.
  - intros s Tl Hs Hlow. rewrite Tl in Hh1.
    destruct Hh1 as (s' & Hs' & ->).
    rewrite Hs in Hs'; inversion Hs'; subst s'.
    rewrite Hsh, Hlow. reflexivity.
  - intros Hno Th.
    assert (Hh1' : h1 = h).
    { destruct (truthy l) eqn:Tl.
      - destruct Hh1 as (s' & Hs' & ->).
        destruct Hno as [F | (s & Hs & Nt & Nf)]; [discriminate|].
        rewrite Hs in Hs'; inversion Hs'; subst s'.
        apply String.eqb_neq in Nt, Nf. now rewrite Nt, Nf.
      - assumption. }
    subst h1. rewrite Hsh, Th. reflexivity.
Qed.

Lemma label_overrides_explicit_handle_witness :
  exists ce,
    process_edge [condition_node; action_node] 0 conflicting_edge = Ok ce /\
    sourceHandle ce = VStr "false".
Proof.
  eexists. split; [reflexivity|].
  apply (proj1 (proj2 (label_overrides_explicit_handle
                         [condition_node; action_node] 0 conflicting_edge _
                         (VStr "False") (VStr "true")
                         eq_refl eq_refl eq_refl eq_refl))
           "False"); reflexivity.
Defined.



(** *** Source node lookup *)

(** The node list enters [process_edge] only through the lookup of the
    resolved source. *)
Lemma process_edge_lookup (ns ns' : list node) (idx : nat) (e : value) :
  (forall src s,
      or_else (get e "source") (get e "from") = Ok src ->
      to_string src = Ok s ->
      find_node ns s = find_node ns' s) ->
  process_edge ns idx e = process_edge ns' idx e.
Proof.
  intros H. unfold process_edge.
  destruct (or_else (get e "source") (get e "from")) as [src|];
    [simpl|reflexivity].
  destruct (to_string src) as [s|] eqn:Hs; [simpl|reflexivity].
  now rewrite (H src s eq_refl Hs).
Qed.

Lemma find_node_first (pre post : list node) (n : node) :
  (forall m, In m pre -> node_id m <> node_id n) ->
  find_node (pre ++ n :: post) (node_id n) = Some n.
Proof.
  unfold find_node. induction pre as [|m pre IH]; simpl; intros Hpre.
  - now rewrite String.eqb_refl.
  - destruct (String.eqb (node_id m) (node_id n)) eqn:Hm.
    + apply String.eqb_eq in Hm. exfalso. apply (Hpre m); auto.
    + apply IH. intros m' Hm'. apply Hpre. auto.
Qed.

(** C10.  With several nodes of one id, the lookup of an edge's source
    returns the first of them in input order, and the edge is processed
    as if that node were the only one: its kind alone decides whether
    the branch is resolved. *)
Theorem first_matching_node_decides
    (pre post : list node) (n : node) (idx : nat) (e : value) (ce : edge) :
  (forall m, In m pre -> node_id m <> node_id n) ->
  process_edge (pre ++ n :: post) idx e = Ok ce ->
  source ce = node_id n ->
  find_node (pre ++ n :: post) (source ce) = Some n /\
  isDecision (find_node (pre ++ n :: post) (source ce)) =
    (is_str (nodeType (data n)) "condition"
     || is_str (node_type n) "control") /\
  process_edge [n] idx e = Ok ce.
Proof.
  intros Hpre Hp Hsrc.
  assert (Hf : find_node (pre ++ n :: post) (source ce) = Some n).
  { rewrite Hsrc. now apply find_node_first. }
  split; [assumption|]. split; [now rewrite Hf|].
  rewrite <- Hp. apply process_edge_lookup.
  intros src s Hsrc' Hs.
  destruct (process_edge_ok _ _ _ _ Hp) as (src0 & tgt & h0 & l & cond & h1
                                            & Hsrc0 & Hs0 & _).
  rewrite Hsrc' in Hsrc0; inversion Hsrc0; subst src0.
  rewrite Hs in Hs0; inversion Hs0; subst s.
  rewrite Hf, Hsrc. unfold find_node; simpl. now rewrite String.eqb_refl.
Qed.

Lemma first_matching_node_decides_witness :
  exists ce,
    process_edge [condition_node; duplicate_node] 0 conflicting_edge = Ok ce /\
    find_node [condition_node; duplicate_node] (source ce)
      = Some condition_node /\
    isDecision (find_node [condition_node; duplicate_node] (source ce))
      = true /\
    process_edge [condition_node] 0 conflicting_edge = Ok ce.
Proof.
  eexists. split; [reflexivity|].
  apply (first_matching_node_decides [] [duplicate_node] condition_node
           0 conflicting_edge).
  - intros m [].
  - reflexivity.
  - reflexivity.
Defined.

(** *** Determinism and order *)

(** C9.  Normalization is a function of the raw graph alone: two runs
    on one input give the same canonical graph, and a run of the effect
    does not depend on the state left by an earlier run.  The output
    follows the raw arrays: it has one node per raw node and one edge
    per raw edge, the entry at each position being the normalization of
    the raw entry at that position, with the position as the only other
    input of an edge (its synthetic id). *)
Theorem normalize_deterministic_in_order (g : value) (cg : graph) :
  normalize g = Ok cg ->
  (forall cg', normalize g = Ok cg' -> cg' = cg) /\
  (forall dagre st st',
      truthy g = true -> effect dagre g st = effect dagre g st') /\
  exists ns es,
    raw_lists g = Ok (VArr ns, VArr es) /\
    List.length (nodes cg) = List.length ns /\
    List.length (edges cg) = List.length es /\
    (forall i n, nth_error ns i = Some n ->
       exists c, nth_error (nodes cg) i = Some c /\
                 normalize_node n = Ok c) /\
    (forall i e, nth_error es i = Some e ->
       exists ce, nth_error (edges cg) i = Some ce /\
                  process_edge (nodes cg) i e = Ok ce).
Proof.
  intros H. split; [|split].
  - intros cg' H'. congruence.
  - intros dagre st st' Tg. unfold effect. now rewrite Tg.
  - destruct (normalize_ok _ _ H) as (ns & es & Hraw & Hns & Hes).
    exists ns, es. split; [assumption|].
    split; [eapply mapM_length; eassumption|].
    split; [eapply mapiM_from_length; eassumption|].
    split.
    + intros i n Hi.
      destruct (mapM_nth _ _ _ Hns _ _ Hi) as (c & Hc & Hn).
      exists c. split; assumption.
    + intros i e Hi.
      destruct (mapiM_from_nth _ _ _ _ Hes _ _ Hi) as (ce & Hce & Hp).
      exists ce. split; assumption.
Qed.

Lemma normalize_deterministic_in_order_witness :
  exists cg, normalize loadSampleGraph = Ok cg /\
    List.length (nodes cg) = 3 /\ List.length (edges cg) = 2.
Proof.
  eexists. split; [reflexivity|].
  destruct (normalize_deterministic_in_order loadSampleGraph _ eq_refl)
    as (_ & _ & ns & es & Hraw & Hn & He & _).
  inversion Hraw; subst. split; assumption.
Defined.

(** *** Layout *)

Lemma normalize_node_tagged (raw tag : value) (n : node) :
  normalize_node raw = Ok n ->
  get raw "type" = Ok tag -> truthy tag = true ->
  nodeType (data n) = tag /\
  (node_type n = tag \/ node_type n = VStr "default").
Proof.
  intros H Ht Tt.
  destruct (normalize_node_kind raw n H) as (tag' & key & Ht' & _ & Hc).
  rewrite Ht in Ht'; inversion Ht'; subst tag'. rewrite Tt in Hc.
  split.
  - unfold normalize_node in H.
    bind_inv H as nt Hnt. bind_inv H as key' Hkey.
    bind_inv H as i Hi. bind_inv H as si Hsi.
    bind_inv H as d Hd. bind_inv H as l Hl. bind_inv H as nt' Hnt'.
    repeat (inv_bind H). inversion H; subst; simpl.
    rewrite (or_else_truthy _ _ _ Ht Tt) in Hnt'. now inversion Hnt'.
  - rewrite Hc. simpl. destruct (nodeTypes_has key); auto.
Qed.

(** C8, as the claim states it, fails for either reading of a node's
    kind.  A raw node tagged [condition] under [data] only is
    normalized to the generic kind and still receives the larger
    footprint; one tagged [control] under [data] only keeps that tag in
    [data.nodeType] and receives the smaller footprint. *)
Lemma footprint_not_decided_by_kind :
  ~ (forall raw n,
        normalize_node raw = Ok n ->
        (footprint n = (300, 150)%Z <->
         is_str (node_type n) "condition"
         || is_str (node_type n) "control" = true)) /\
  ~ (forall raw n,
        normalize_node raw = Ok n ->
        (footprint n = (300, 150)%Z <->
         is_str (nodeType (data n)) "condition"
         || is_str (nodeType (data n)) "control" = true)).
Proof.
  split; intros H.
  - destruct (H nested_condition _ eq_refl) as [Hlr _].
    specialize (Hlr eq_refl). discriminate Hlr.
  - destruct (H nested_control _ eq_refl) as [_ Hrl].
    specialize (Hrl eq_refl). discriminate Hrl.
Qed.

(** C8 (amended).  A node receives the larger footprint (300 by 150
    instead of 250 by 120) if and only if it passes the test that
    branch resolution applies to a source node: [data.nodeType] is
    [condition] or [type] is [control].  For a node normalized from a
    raw node that carries a top-level kind tag this is the case exactly
    when its kind is [condition] or [control].  Layout returns the
    edges as they are and, in order, nodes with the id, kind and data
    of the nodes it was given. *)
Theorem footprint_follows_decision_test
    (dagre : string -> Z -> Z -> list (string * (Z * Z)) ->
             list (string * string) -> string -> Z * Z)
    (ns : list node) (es : list edge) (direction : string) :
  (forall n,
      (footprint n = (300, 150)%Z <-> isDecision (Some n) = true) /\
      (footprint n = (250, 120)%Z <-> isDecision (Some n) = false)) /\
  (forall raw tag n,
      normalize_node raw = Ok n ->
      get raw "type" = Ok tag -> truthy tag = true ->
      isDecision (Some n) =
        (is_str (node_type n) "condition"
         || is_str (node_type n) "control")) /\
  snd (getLayoutedElements dagre ns es direction) = es /\
  map l_id (fst (getLayoutedElements dagre ns es direction))
    = map node_id ns /\
  map l_type (fst (getLayoutedElements dagre ns es direction))
    = map node_type ns /\
  map l_data (fst (getLayoutedElements dagre ns es direction))
    = map data ns.
Proof.
  split; [|split].
  - intros n. unfold footprint, isDiamond, isDecision.
    destruct (is_str (nodeType (data n)) "condition"
              || is_str (node_type n) "control");
      repeat split; intros; try reflexivity; discriminate.
  - intros raw tag n H Ht Tt.
    destruct (normalize_node_tagged raw tag n H Ht Tt) as (Hnt & Hty).
    unfold isDecision. rewrite Hnt.
    destruct Hty as [-> | Hd].
    + destruct (is_str tag "condition"); reflexivity.
    + rewrite Hd. simpl.
      destruct (normalize_node_kind raw n H) as (tag' & key & Ht' & Hk & Hc).
      rewrite Ht in Ht'; inversion Ht'; subst tag'.
      rewrite Tt in Hk, Hc. simpl in Hc.
      destruct tag; try reflexivity. simpl in Hk. inversion Hk; subst key.
      simpl.
      destruct (String.eqb s "condition") eqn:E1.
      { apply String.eqb_eq in E1; subst s. rewrite Hd in Hc.
        discriminate Hc. }
      destruct (String.eqb s "control") eqn:E2.
      { apply String.eqb_eq in E2; subst s. rewrite Hd in Hc.
        discriminate Hc. }
      reflexivity.
  - unfold getLayoutedElements; simpl.
    split; [reflexivity|].
    rewrite !map_map; simpl. repeat split; reflexivity.
Qed.

Lemma footprint_follows_decision_test_witness :
  footprint condition_node = (300, 150)%Z /\
  footprint action_node = (250, 120)%Z /\
  isDecision (Some condition_node) =
    (is_str (node_type condition_node) "condition"
     || is_str (node_type condition_node) "control") /\
  map l_data (fst (getLayoutedElements flat_layout
                     [condition_node; action_node] [] "LR"))
    = [data condition_node; data action_node].
Proof.
  destruct (footprint_follows_decision_test flat_layout
              [condition_node; action_node] [] "LR")
    as (Hfp & Hkind & _ & _ & _ & Hdata).
  split; [apply (proj1 (Hfp condition_node)); reflexivity|].
  split; [apply (proj2 (Hfp action_node)); reflexivity|].
  split; [|exact Hdata].
  apply (Hkind (VObj [("id", VNum 1); ("type", VStr "condition")])
               (VStr "condition")); reflexivity.
Defined.

(** *** JSON export *)

Lemma json_roundtrip_clean (v : value) :
  json_clean v = true -> json_roundtrip v = v.
Proof.
  induction v as [| | b | z | s | elems IH | props IH] using value_ind;
    simpl; intros Hc; try reflexivity.
  - f_equal. induction IH as [|x rest Hx _ IHrest]; simpl in *.
    + reflexivity.
    + apply andb_true_iff in Hc. destruct Hc as [Cx Cr].
      rewrite (IHrest Cr). f_equal.
      rewrite (Hx Cx). destruct x; try reflexivity; discriminate.
  - f_equal. induction IH as [|[k x] rest Hx _ IHrest]; simpl in *.
    + reflexivity.
    + apply andb_true_iff in Hc. destruct Hc as [Cx Cr].
      rewrite (IHrest Cr), (Hx Cx).
      destruct x; try reflexivity; discriminate.
Qed.


Lemma truthy_clean (v : value) :
  clean_or_undef v -> truthy v = true -> json_clean v = true.
Proof. intros [H | ->]; [auto | discriminate]. Qed.

Lemma lookup_clean (k : string) (props : list (string * value)) :
  json_clean (VObj props) = true -> clean_or_undef (lookup k props).
Proof.
  induction props as [|[k' x] rest IH]; simpl; intros Hc.
  - now right.
  - apply andb_true_iff in Hc. destruct Hc as [Cx Cr].
    destruct (String.eqb k' k); [now left | auto].
Qed.

Lemma get_clean (v x : value) (k : string) :
  clean_or_undef v -> get v k = Ok x -> clean_or_undef x.
Proof.
  intros [Hc | ->]; [|discriminate].
  destruct v; simpl; intros H; inversion H; subst;
    try (now right). now apply lookup_clean.
Qed.

Lemma get_opt_clean (v : value) (k : string) :
  clean_or_undef v -> clean_or_undef (get_opt v k).
Proof.
  intros [Hc | ->]; [|now right].
  destruct v; simpl; try (now right). now apply lookup_clean.
Qed.

Lemma or_else_clean (a b : result value) (v : value) :
  or_else a b = Ok v ->
  (forall x, a = Ok x -> clean_or_undef x) ->
  (forall y, b = Ok y -> clean_or_undef y) ->
  clean_or_undef v.
Proof.
  intros H Ha Hb. apply or_else_ok in H. destruct H as (x & Hx & Hsel).
  destruct (truthy x); subst; auto.
Qed.

Lemma or_else_default_truthy (a : result value) (lit v : value) :
  or_else a (Ok lit) = Ok v -> truthy lit = true -> truthy v = true.
Proof.
  intros H Hl. apply or_else_ok in H. destruct H as (x & Hx & Hsel).
  destruct (truthy x) eqn:Tx; [now subst | now inversion Hsel; subst].
Qed.

Lemma or_else_pick (a b : value) :
  or_else (Ok a) (Ok b) = Ok (pick a b).
Proof. unfold or_else, pick; simpl. now destruct (truthy a). Qed.

(** Reading a property of a serialized object: the serialized value of
    the property, as long as the object binds each key once. *)
Lemma lookup_roundtrip_absent (k : string) (props : list (string * value)) :
  ~ In k (map fst props) ->
  get_opt (json_roundtrip (VObj props)) k = VUndef.
Proof.
  induction props as [|[k' x] rest IH]; simpl; intros Hk.
  - reflexivity.
  - assert (Hne : String.eqb k' k = false).
    { apply String.eqb_neq. intros ->. apply Hk. now left. }
    assert (Hrest : ~ In k (map fst rest)) by (intros Hin; apply Hk; now right).
    specialize (IH Hrest). simpl in IH.
    destruct x; simpl; rewrite ?Hne; exact IH.
Qed.

Lemma lookup_roundtrip (k : string) (props : list (string * value)) :
  NoDup (map fst props) ->
  get_opt (json_roundtrip (VObj props)) k = json_roundtrip (lookup k props).
Proof.
  induction props as [|[k' x] rest IH]; simpl; intros Hnd.
  - reflexivity.
  - inversion Hnd as [|? ? Hk' Hrest]; subst.
    specialize (IH Hrest). simpl in IH.
    destruct (String.eqb k' k) eqn:Hk.
    + apply String.eqb_eq in Hk; subst k'.
      pose proof (lookup_roundtrip_absent k rest Hk') as Habs. simpl in Habs.
      destruct x; simpl; rewrite ?String.eqb_refl; try reflexivity.
      exact Habs.
    + destruct x; simpl; rewrite ?Hk; exact IH.
Qed.

Lemma json_roundtrip_obj (props : list (string * value)) :
  exists props', json_roundtrip (VObj props) = VObj props'.
Proof. simpl. eauto. Qed.

(** [normalize_node] on an object: no property read throws. *)
Lemma normalize_node_obj (props : list (string * value)) :
  normalize_node (VObj props) =
    (let tag := pick (lookup "type" props) (VStr "default") in
     let d := lookup "data" props in
     key <- to_string tag ;;
     id_ <- to_string (lookup "id" props) ;;
     Ok {| node_id := id_;
           node_type := if nodeTypes_has key then tag else VStr "default";
           data :=
             {| label := pick (pick (lookup "label" props)
                                    (get_opt d "label")) (VStr "Untitled");
                nodeType := pick (lookup "type" props) (get_opt d "nodeType");
                config := pick (pick (lookup "config" props)
                                     (get_opt d "config")) (VObj []);
                params := pick (lookup "params" props) (VObj []);
                integration_type_name := lookup "integration_type_name" props;
                task := lookup "task" props;
                task_display_name := lookup "task_display_name" props |};
           node_position := pick (lookup "position" props) origin |}).
Proof.
  unfold normalize_node. cbn [get]. rewrite or_else_pick. cbn [bind].
  destruct (to_string (pick (lookup "type" props) (VStr "default")))
    as [key|]; [cbn [bind]|reflexivity].
  destruct (to_string (lookup "id" props)) as [id_|]; [cbn [bind]|reflexivity].
  rewrite !or_else_pick. reflexivity.
Qed.

(** The fields of a node normalized from a parsed JSON value. *)
Lemma normalize_node_facts (n : value) (c : node) :
  json_clean n = true ->
  normalize_node n = Ok c ->
  (truthy (node_type c) = true /\ json_clean (node_type c) = true /\
   exists key, to_string (node_type c) = Ok key /\ nodeTypes_has key = true) /\
  (truthy (label (data c)) = true /\ json_clean (label (data c)) = true) /\
  (truthy (config (data c)) = true /\ json_clean (config (data c)) = true) /\
  (truthy (node_position c) = true /\ json_clean (node_position c) = true).
Proof.
  intros Cn H. unfold normalize_node in H.
  assert (Cn' : clean_or_undef n) by now left.
  bind_inv H as nt Hnt. bind_inv H as key Hkey.
  bind_inv H as i Hi. bind_inv H as si Hsi.
  bind_inv H as d Hd. bind_inv H as l Hl. bind_inv H as nt' Hnt'.
  bind_inv H as cf Hcf. bind_inv H as pa Hpa.
  bind_inv H as itn Hitn. bind_inv H as ta Hta. bind_inv H as tdn Htdn.
  bind_inv H as pos Hpos. inversion H; subst; simpl. clear H.
  assert (Cd : clean_or_undef d) by exact (get_clean n d "data" Cn' Hd).
  assert (Hlit : forall lit : value, json_clean lit = true ->
             forall y : value, Ok lit = Ok y -> clean_or_undef y).
  { intros lit Hc y Hy. inversion Hy; subst. now left. }
  assert (Hopt : forall k (y : value),
             Ok (get_opt d k) = Ok y -> clean_or_undef y).
  { intros k y Hy. inversion Hy; subst. now apply get_opt_clean. }
  assert (Hget : forall k (y : value), get n k = Ok y -> clean_or_undef y).
  { intros k y Hy. exact (get_clean n y k Cn' Hy). }
  assert (Tnt : truthy nt = true)
    by (eapply or_else_default_truthy; [eassumption | reflexivity]).
  assert (Cnt : json_clean nt = true).
  { apply truthy_clean; [|assumption].
    eapply or_else_clean; [eassumption | apply Hget | apply Hlit; reflexivity]. }
  split; [|split; [|split]].
  - destruct (nodeTypes_has key) eqn:Hhas.
    + split; [assumption|]. split; [assumption|]. eauto.
    + split; [reflexivity|]. split; [reflexivity|].
      exists "default". split; reflexivity.
  - assert (T : truthy l = true)
      by (eapply or_else_default_truthy; [eassumption | reflexivity]).
    split; [assumption|]. apply truthy_clean; [|assumption].
    eapply or_else_clean; [eassumption | | apply Hlit; reflexivity].
    intros x Hx. eapply or_else_clean; [eassumption | apply Hget | apply Hopt].
  - assert (T : truthy cf = true)
      by (eapply or_else_default_truthy; [eassumption | reflexivity]).
    split; [assumption|]. apply truthy_clean; [|assumption].
    eapply or_else_clean; [eassumption | | apply Hlit; reflexivity].
    intros x Hx. eapply or_else_clean; [eassumption | apply Hget | apply Hopt].
  - assert (T : truthy pos = true)
      by (eapply or_else_default_truthy; [eassumption | reflexivity]).
    split; [assumption|]. apply truthy_clean; [|assumption].
    eapply or_else_clean; [eassumption | apply Hget | apply Hlit; reflexivity].
Qed.

Lemma pick_truthy (a b : value) : truthy a = true -> pick a b = a.
Proof. unfold pick. now intros ->. Qed.

(** Normalizing the serialized form of a normalized node. *)
Lemma renormalize_node (n : value) (c : node) :
  json_clean n = true ->
  normalize_node n = Ok c ->
  normalize_node (json_roundtrip (node_to_value c)) = Ok (renormalized c).
Proof.
  intros Cn H. unfold renormalized.
  destruct (normalize_node_facts n c Cn H)
    as ((Tty & Cty & key & Hkey & Hhas) & (Tl & Cl) & (Tc & Cc) & (Tp & Cp)).
  unfold node_to_value.
  match goal with
  | |- normalize_node (json_roundtrip (VObj ?props0)) = _ =>
      destruct (json_roundtrip_obj props0) as (props' & Hp);
      assert (L : forall k, lookup k props' = json_roundtrip (lookup k props0))
  end.
  { intros k. rewrite <- lookup_roundtrip.
    - rewrite Hp. reflexivity.
    - simpl. repeat constructor; simpl; intuition discriminate. }
  rewrite Hp, normalize_node_obj. cbn zeta. rewrite !L.
  cbn [lookup String.eqb Ascii.eqb Bool.eqb].
  rewrite !lookup_roundtrip
    by (simpl; repeat constructor; simpl; intuition discriminate).
  cbn [lookup String.eqb Ascii.eqb Bool.eqb].
  rewrite (json_roundtrip_clean _ Cty), (json_roundtrip_clean _ Cl),
          (json_roundtrip_clean _ Cc), (json_roundtrip_clean _ Cp).
  cbn [json_roundtrip].
  rewrite (pick_truthy (node_type c)) by assumption.
  rewrite (pick_truthy (node_type c)) by assumption.
  rewrite Hkey. cbn [bind to_string]. rewrite Hhas.
  unfold pick at 2 4 5. cbn [truthy].
  rewrite !pick_truthy by assumption.
  reflexivity.
Qed.


Lemma truthy_VStr (s : string) : s <> EmptyString -> truthy (VStr s) = true.
Proof. intros H. simpl. apply negb_true_iff, String.eqb_neq. exact H. Qed.











Lemma find_node_renormalized (ns : list node) (s : string) :
  find_node (map renormalized ns) s = option_map renormalized (find_node ns s).
Proof.
  unfold find_node. induction ns as [|c rest IH]; simpl; [reflexivity|].
  destruct (String.eqb (node_id c) s); [reflexivity | exact IH].
Qed.

Lemma isDecision_renormalized (n : value) (c : node) :
  normalize_node n = Ok c ->
  isDecision (Some (renormalized c)) = true ->
  isDecision (Some c) = true.
Proof.
  intros H. unfold isDecision, renormalized; simpl.
  destruct (normalize_node_kind n c H) as (tag & key & Ht & Hk & Hc).
  intros Hd. apply orb_true_iff in Hd. apply orb_true_iff.
  destruct Hd as [Hd | Hd]; [left | now right].
  destruct (truthy tag) eqn:Tt; simpl in Hc.
  - destruct (normalize_node_tagged n tag c H Ht Tt) as (Hnt & _).
    rewrite Hnt. destruct (nodeTypes_has key); rewrite Hc in Hd;
      [assumption | discriminate].
  - rewrite Hc in Hd. discriminate.
Qed.

(** The branch agrees with the label whenever the raw edge supplied
    the label itself. *)
Lemma label_agrees_raw_label
    (ns : list node) (idx : nat) (e l : value) (ce : edge) :
  (forall c, In c ns -> exists n, normalize_node n = Ok c) ->
  process_edge ns idx e = Ok ce ->
  get e "label" = Ok l -> truthy l = true ->
  label_agrees (map renormalized ns) ce.
Proof.
  intros Hns H Hl Tl. unfold label_agrees.
  rewrite find_node_renormalized. intros Hdec Tlab.
  destruct (process_edge_ok _ _ _ _ H)
    as (src & tgt & h0 & l' & cond & h1 & _ & _ & _ & _ & Hh0 & Hl' & _
        & Hh1 & Hsh & _ & Hlab).
  rewrite Hl in Hl'; inversion Hl'; subst l'.
  rewrite (or_else_truthy _ _ l Hl Tl) in Hlab. inversion Hlab as [Hlab'].
  assert (Hdec0 : isDecision (find_node ns (source ce)) = true).
  { destruct (find_node ns (source ce)) as [c|] eqn:Hf; [|discriminate].
    destruct (Hns c) as (n & Hn).
    - unfold find_node in Hf. apply find_some in Hf. tauto.
    - exact (isDecision_renormalized n c Hn Hdec). }
  rewrite Hdec0, Tl in Hh1. rewrite Hdec0 in Hsh. simpl in Hh1.
  destruct Hh1 as (s & Hs & Hh1). exists s.
  split; [now rewrite <- Hlab'|].
  split; intros Hlow; rewrite Hlow in Hh1; simpl in Hh1; subst h1;
    rewrite Hsh; reflexivity.
Qed.




(** *** Inputs on which normalization returns *)

Lemma to_string_primitive (v : value) :
  primitive v = true -> exists s, to_string v = Ok s.
Proof.
  destruct v; simpl; intros H; try discriminate; eauto.
  destruct b; eauto.
Qed.

Lemma pick_primitive (a b : value) :
  primitive a = true -> primitive b = true -> primitive (pick a b) = true.
Proof. unfold pick. now destruct (truthy a). Qed.

Lemma mapM_returns {A B} (f : A -> result B) (l : list A) :
  (forall x, In x l -> exists y, f x = Ok y) ->
  exists l', mapM f l = Ok l'.
Proof.
  induction l as [|x rest IH]; simpl; intros Hl; [eauto|].
  destruct (Hl x (or_introl eq_refl)) as (y & Hy).
  destruct IH as (ys & Hys); [intros z Hz; apply Hl; now right|].
  rewrite Hy, Hys; simpl. eauto.
Qed.

Lemma mapiM_from_returns {A B} (f : nat -> A -> result B) (l : list A) :
  (forall i x, In x l -> exists y, f i x = Ok y) ->
  forall i, exists l', mapiM_from i f l = Ok l'.
Proof.
  induction l as [|x rest IH]; simpl; intros Hl i; [eauto|].
  destruct (Hl i x (or_introl eq_refl)) as (y & Hy).
  destruct (IH (fun j z Hz => Hl j z (or_intror Hz)) (S i)) as (ys & Hys).
  rewrite Hy, Hys; simpl. eauto.
Qed.

Lemma normalize_node_returns (n : value) :
  plain_node n = true -> exists c, normalize_node n = Ok c.
Proof.
  destruct n as [| | | | | |props]; simpl; try discriminate.
  intros H. apply andb_true_iff in H. destruct H as [Pid Pty].
  rewrite normalize_node_obj. cbn zeta.
  destruct (to_string_primitive
              (pick (lookup "type" props) (VStr "default")))
    as (key & Hkey); [now apply pick_primitive|].
  destruct (to_string_primitive _ Pid) as (i & Hi).
  rewrite Hkey, Hi. cbn [bind]. eauto.
Qed.

Lemma process_edge_returns (ns : list node) (idx : nat) (e : value) :
  plain_edge e = true -> exists ce, process_edge ns idx e = Ok ce.
Proof.
  destruct e as [| | | | | |props]; simpl; try discriminate.
  intros H. repeat (apply andb_true_iff in H; destruct H as [H ?]).
  destruct (to_string_primitive
              (pick (lookup "source" props) (lookup "from" props)))
    as (s & Hs); [now apply pick_primitive|].
  destruct (to_string_primitive
              (pick (lookup "target" props) (lookup "to" props)))
    as (t & Ht); [now apply pick_primitive|].
  destruct (to_string_primitive (lookup "label" props)) as (l & Hl);
    [assumption|].
  destruct (to_string_primitive
              (get_opt (lookup "condition" props) "value")) as (c & Hc);
    [assumption|].
  unfold process_edge. cbn [get].
  rewrite or_else_pick. cbn [bind]. rewrite Hs. cbn [bind].
  rewrite or_else_pick. cbn [bind]. rewrite Ht. cbn [bind].
  rewrite Hl, Hc. unfold or_else. cbn [bind].
  destruct (isDecision (find_node ns s) && truthy (lookup "label" props));
    cbn [bind];
    destruct (truthy (lookup "label" props)); cbn [bind];
    destruct (truthy (lookup "id" props)); cbn [bind];
    destruct (truthy (get_opt (lookup "condition" props) "value"));
    cbn [bind]; eauto.
Qed.

(** X9.  Missing fields alone never make normalization throw: it
    returns on every graph whose raw lists are arrays of plain nodes
    and edges. *)
Lemma normalize_returns (g : value) (ns es : list value) :
  raw_lists g = Ok (VArr ns, VArr es) ->
  forallb plain_node ns = true ->
  forallb plain_edge es = true ->
  exists cg, normalize g = Ok cg.
Proof.
  intros Hraw Pn Pe. rewrite forallb_forall in Pn, Pe.
  unfold normalize. rewrite Hraw. cbn [bind fst snd elements].
  destruct (mapM_returns normalize_node ns) as (cs & Hcs).
  { intros n Hn. apply normalize_node_returns. auto. }
  rewrite Hcs. cbn [bind].
  destruct (mapiM_from_returns (process_edge cs) es) with (i := 0)
    as (ces & Hces).
  { intros i e He. apply process_edge_returns. auto. }
  rewrite Hces. cbn [bind]. eauto.
Qed.

(** Truthy [source] and [target] fields are the endpoints, whatever
    [from] and [to] hold. *)
Lemma truthy_source_target_win
    (ns : list node) (idx : nat) (e s t : value) (ce : edge) :
  process_edge ns idx e = Ok ce ->
  get e "source" = Ok s -> truthy s = true ->
  get e "target" = Ok t -> truthy t = true ->
  to_string s = Ok (source ce) /\ to_string t = Ok (target ce).
Proof.
  intros H Hs Ts Ht Tt.
  destruct (process_edge_ok _ _ _ _ H)
    as (src & tgt & h0 & l & cond & h1 & Hsrc & Hss & Htgt & Hts & _).
  rewrite (or_else_truthy _ _ s Hs Ts) in Hsrc.
  rewrite (or_else_truthy _ _ t Ht Tt) in Htgt.
  inversion Hsrc; inversion Htgt; subst. split; assumption.
Qed.

(** ** Further properties of the normalization *)

Lemma raw_lists_nested (g wf first w n c : value) :
  get g "workflows" = Ok wf -> truthy wf = true ->
  index0 wf = Ok first -> truthy first = true ->
  get first "workflow_data" = Ok w ->
  get w "nodes" = Ok n -> get w "connections" = Ok c ->
  raw_lists g = Ok (pick n (VArr []), pick c (VArr [])).
Proof.
  intros Hwf Twf Hfirst Tfirst Hw Hn Hc.
  unfold raw_lists, and_then. rewrite Hwf. cbn [bind]. rewrite Twf, Hfirst.
  cbn [bind]. rewrite Tfirst, Hw. cbn [bind].
  rewrite Hn, Hc, !or_else_pick. reflexivity.
Qed.

(** X1.  Shape equivalence: a graph in the nested shape is normalized
    exactly like the simple-shape graph whose [nodes] and [edges] are
    the [nodes] and [connections] of the first record's
    [workflow_data]; [nodes] and [edges] fields next to [workflows]
    play no part. *)
Theorem nested_shape_equals_simple (g wf first w n c : value) :
  get g "workflows" = Ok wf -> truthy wf = true ->
  index0 wf = Ok first -> truthy first = true ->
  get first "workflow_data" = Ok w ->
  get w "nodes" = Ok n -> get w "connections" = Ok c ->
  normalize g = normalize (VObj [("nodes", n); ("edges", c)]).
Proof.
  intros Hwf Twf Hfirst Tfirst Hw Hn Hc.
  unfold normalize.
  rewrite (raw_lists_nested g wf first w n c) by assumption.
  assert (Hs : raw_lists (VObj [("nodes", n); ("edges", c)])
               = Ok (pick n (VArr []), pick c (VArr []))).
  { unfold raw_lists, and_then, or_else, pick. simpl.
    destruct (truthy n), (truthy c); reflexivity. }
  now rewrite Hs.
Qed.

Lemma nested_shape_equals_simple_witness :
  normalize
    (VObj [("workflows",
            VArr [VObj [("workflow_data",
                         VObj [("nodes", decision_nodes);
                               ("connections", VArr [conflicting_edge])])]]);
           ("nodes", VArr [VNull])])
  = normalize (VObj [("nodes", decision_nodes);
                     ("edges", VArr [conflicting_edge])]).
Proof.
  eapply nested_shape_equals_simple; reflexivity.
Defined.

(** X2.  Only the first workflow record is consulted: two graphs whose
    [workflows] lists start with the same record, and whose own
    [nodes] and [edges] agree, have the same normalization. *)
Theorem later_workflow_records_ignored
    (g g' first : value) (rest rest' : list value) :
  get g "workflows" = Ok (VArr (first :: rest)) ->
  get g' "workflows" = Ok (VArr (first :: rest')) ->
  get g "nodes" = get g' "nodes" ->
  get g "edges" = get g' "edges" ->
  normalize g = normalize g'.
Proof.
  intros Hg Hg' Hn He.
  assert (Hraw : raw_lists g = raw_lists g').
  { unfold raw_lists, and_then. rewrite Hg, Hg', Hn, He. reflexivity. }
  unfold normalize. now rewrite Hraw.
Qed.

Lemma later_workflow_records_ignored_witness :
  let first := VObj [("workflow_data", VObj [("nodes", decision_nodes)])] in
  normalize (VObj [("workflows", VArr [first; VNull; VNum 7])])
  = normalize (VObj [("workflows", VArr [first])]).
Proof.
  intros first.
  apply (later_workflow_records_ignored _ _ first [VNull; VNum 7] []);
    reflexivity.
Defined.



(** X4.  A raw node tagged with one of the kinds listed in [nodeTypes]
    keeps that kind, and [data.nodeType] carries the same tag. *)
Theorem recognized_kind_kept (n : value) (c : node) (t : string) :
  In t nodeTypes ->
  get n "type" = Ok (VStr t) ->
  normalize_node n = Ok c ->
  node_type c = VStr t /\ nodeType (data c) = VStr t.
Proof.
  intros Hin Ht H. split.
  - now apply (normalize_node_recognized n c t).
  - assert (Htr : truthy (VStr t) = true).
    { simpl in Hin.
      repeat (destruct Hin as [<- | Hin]; [reflexivity|]). contradiction. }
    apply (normalize_node_tagged n (VStr t) c H Ht Htr).
Qed.

Lemma recognized_kind_kept_witness :
  exists c,
    normalize_node (VObj [("id", VNum 4); ("type", VStr "webhook");
                          ("data", VObj [("nodeType", VStr "log")])]) = Ok c /\
    node_type c = VStr "webhook" /\ nodeType (data c) = VStr "webhook".
Proof.
  eexists. split; [reflexivity|].
  apply (recognized_kind_kept
           (VObj [("id", VNum 4); ("type", VStr "webhook");
                  ("data", VObj [("nodeType", VStr "log")])]) _ "webhook");
    [simpl; tauto | reflexivity | reflexivity].
Defined.

(** X5.  A string tag that is neither listed in [nodeTypes] nor the
    name of a member of [Object.prototype] resolves to the kind
    [default]; unless it is empty, the raw tag is still what
    [data.nodeType] holds. *)
Theorem unlisted_kind_falls_back (n : value) (c : node) (t : string) :
  get n "type" = Ok (VStr t) ->
  nodeTypes_has t = false ->
  normalize_node n = Ok c ->
  node_type c = VStr "default" /\
  (t <> EmptyString -> nodeType (data c) = VStr t).
Proof.
  intros Ht Hno H.
  destruct (normalize_node_kind n c H) as (tag & key & Ht' & Hk & Hc).
  rewrite Ht in Ht'; inversion Ht'; subst tag. split.
  - rewrite Hc. destruct (truthy (VStr t)) eqn:Tt; [|reflexivity].
    simpl in Hk. inversion Hk; subst key. now rewrite Hno.
  - intros Hne. apply (normalize_node_tagged n (VStr t) c H Ht).
    now apply truthy_VStr.
Qed.

Lemma unlisted_kind_falls_back_witness :
  exists c,
    normalize_node (VObj [("id", VNum 2); ("type", VStr "http_request")])
      = Ok c /\
    node_type c = VStr "default" /\ nodeType (data c) = VStr "http_request".
Proof.
  eexists. split; [reflexivity|].
  destruct (unlisted_kind_falls_back
              (VObj [("id", VNum 2); ("type", VStr "http_request")]) _
              "http_request" eq_refl eq_refl eq_refl)
    as (Hk & Hn).
  split; [exact Hk|]. apply Hn. discriminate.
Defined.

(** X6.  No branch is resolved for an edge whose source is not a
    decision-kind node, or is no node of the graph at all (a dangling
    edge): the processed edge carries the raw handle, whatever its
    label and condition say. *)
Theorem non_decision_source_keeps_handle
    (ns : list node) (idx : nat) (e h : value) (ce : edge) :
  process_edge ns idx e = Ok ce ->
  get e "sourceHandle" = Ok h ->
  (isDecision (find_node ns (source ce)) = false -> sourceHandle ce = h) /\
  (find_node ns (source ce) = None -> sourceHandle ce = h).
Proof.
  intros H Hh.
  destruct (process_edge_ok _ _ _ _ H)
    as (src & tgt & h0 & l & cond & h1 & _ & _ & _ & _ & Hh0 & _ & _
        & Hh1 & Hsh & _).
  rewrite Hh in Hh0; inversion Hh0; subst h0.
  assert (Hmain : isDecision (find_node ns (source ce)) = false ->
                  sourceHandle ce = h).
  { intros Hd. rewrite Hd in Hh1, Hsh. simpl in Hh1, Hsh. congruence. }
  split; [exact Hmain|].
  intros Hnone. apply Hmain. now rewrite Hnone.
Qed.

Lemma non_decision_source_keeps_handle_witness :
  exists ce,
    process_edge [action_node] 0
      (VObj [("source", VNum 9); ("target", VNum 2);
             ("label", VStr "true")]) = Ok ce /\
    sourceHandle ce = VUndef.
Proof.
  eexists. split; [reflexivity|].
  apply (proj2 (non_decision_source_keeps_handle [action_node] 0
                  (VObj [("source", VNum 9); ("target", VNum 2);
                         ("label", VStr "true")]) VUndef _
                  eq_refl eq_refl)).
  reflexivity.
Defined.



Lemma string_of_nat_inj (i j : nat) :
  string_of_nat i = string_of_nat j -> i = j.
Proof.
  unfold string_of_nat, string_of_Z. intros H.
  assert (Hnn : forall n : nat,
             Z.to_int (Z.of_nat n) <> Decimal.Pos Decimal.Nil /\
             Z.to_int (Z.of_nat n) <> Decimal.Neg Decimal.Nil).
  { intros n. destruct (Z.of_nat n) eqn:Hn; simpl.
    - split; discriminate.
    - split; [|discriminate]. intros Hp. inversion Hp as [Hp'].
      revert Hp'. apply DecimalPos.Unsigned.to_uint_nonnil.
    - split; [discriminate|]. intros Hp. inversion Hp as [Hp'].
      revert Hp'. apply DecimalPos.Unsigned.to_uint_nonnil. }
  assert (Hs : Some (Z.to_int (Z.of_nat i)) = Some (Z.to_int (Z.of_nat j))).
  { rewrite <- (NilZero.isi (Z.to_int (Z.of_nat i))) by apply Hnn.
    rewrite <- (NilZero.isi (Z.to_int (Z.of_nat j))) by apply Hnn.
    now rewrite H. }
  inversion Hs as [Hz]. apply DecimalZ.to_int_inj in Hz.
  now apply Nat2Z.inj.
Qed.

(** X8.  An edge without a truthy [id] is given the id [e-] followed
    by its position, so the ids made up for edges at different
    positions are different. *)
Theorem synthetic_edge_ids_distinct
    (ns ns' : list node) (i j : nat) (e e' x x' : value) (ce ce' : edge) :
  process_edge ns i e = Ok ce ->
  process_edge ns' j e' = Ok ce' ->
  get e "id" = Ok x -> truthy x = false ->
  get e' "id" = Ok x' -> truthy x' = false ->
  edge_id ce = VStr ("e-" ++ string_of_nat i) /\
  (i <> j -> edge_id ce <> edge_id ce').
Proof.
  intros H H' Hx Fx Hx' Fx'.
  destruct (process_edge_ok _ _ _ _ H)
    as (? & ? & ? & ? & ? & ? & _ & _ & _ & _ & _ & _ & _ & _ & _ & Hid & _).
  destruct (process_edge_ok _ _ _ _ H')
    as (? & ? & ? & ? & ? & ? & _ & _ & _ & _ & _ & _ & _ & _ & _ & Hid' & _).
  rewrite (or_else_falsy _ _ x Hx Fx) in Hid.
  rewrite (or_else_falsy _ _ x' Hx' Fx') in Hid'.
  inversion Hid as [Hi]. inversion Hid' as [Hj]. split; [reflexivity|].
  intros Hne Heq. apply Hne. apply string_of_nat_inj.
  inversion Heq. reflexivity.
Qed.

Lemma synthetic_edge_ids_distinct_witness :
  exists ce ce',
    process_edge [] 0 bare_edge = Ok ce /\
    process_edge [] 11 bare_edge = Ok ce' /\
    edge_id ce = VStr "e-0" /\ edge_id ce <> edge_id ce'.
Proof.
  eexists. eexists. split; [reflexivity|]. split; [reflexivity|].
  destruct (synthetic_edge_ids_distinct [] [] 0 11 bare_edge bare_edge
              VUndef VUndef _ _ eq_refl eq_refl eq_refl eq_refl
              eq_refl eq_refl) as (Hid & Hne).
  split; [exact Hid|]. apply Hne. discriminate.
Defined.

Lemma normalize_returns_witness :
  exists cg, normalize sparse_graph = Ok cg.
Proof.
  apply (normalize_returns sparse_graph
           [VObj []; VObj [("id", VNum 2)]]
           [VObj []; VObj [("from", VNum 2)]]); reflexivity.
Defined.

Lemma mapM_raises {A B} (f : A -> result B) (l : list A) (x : A) :
  In x l -> f x = TypeError -> mapM f l = TypeError.
Proof.
  induction l as [|a rest IH]; simpl; intros Hin Hx; [contradiction|].
  destruct Hin as [-> | Hin].
  - now rewrite Hx.
  - destruct (f a); [simpl|reflexivity]. now rewrite IH.
Qed.

Lemma mapiM_from_raises {A B} (f : nat -> A -> result B) (l : list A) (x : A) :
  In x l -> (forall i, f i x = TypeError) ->
  forall i, mapiM_from i f l = TypeError.
Proof.
  induction l as [|a rest IH]; simpl; intros Hin Hx i; [contradiction|].
  destruct Hin as [-> | Hin].
  - now rewrite Hx.
  - destruct (f i a); [simpl|reflexivity]. now rewrite IH.
Qed.

(** X10.  Normalization throws when the raw node list or edge list is
    truthy but not an array, and when one of their entries is [null]:
    nothing is rendered from the entries that are well formed. *)
Theorem malformed_lists_raise (g rn re : value) :
  raw_lists g = Ok (rn, re) ->
  ((forall ns, rn <> VArr ns) -> normalize g = TypeError) /\
  (forall ns, rn = VArr ns -> In VNull ns -> normalize g = TypeError) /\
  (forall ns cs, rn = VArr ns -> mapM normalize_node ns = Ok cs ->
     (forall es, re <> VArr es) -> normalize g = TypeError) /\
  (forall ns cs es, rn = VArr ns -> mapM normalize_node ns = Ok cs ->
     re = VArr es -> In VNull es -> normalize g = TypeError).
Proof.
  intros Hraw. unfold normalize. rewrite Hraw. cbn [bind fst snd].
  split; [|split; [|split]].
  - intros Hno. destruct rn; try reflexivity. now destruct (Hno elems).
  - intros ns -> Hin. cbn [elements bind].
    now rewrite (mapM_raises normalize_node ns VNull Hin eq_refl).
  - intros ns cs -> Hcs Hno. cbn [elements bind]. rewrite Hcs. cbn [bind].
    destruct re; try reflexivity. now destruct (Hno elems).
  - intros ns cs es -> Hcs -> Hin. cbn [elements bind]. rewrite Hcs.
    cbn [bind].
    now rewrite (mapiM_from_raises (process_edge cs) es VNull Hin
                   (fun _ => eq_refl)).
Qed.

Lemma malformed_lists_raise_witness :
  normalize (VObj [("nodes", VStr "abc")]) = TypeError /\
  normalize (VObj [("nodes", VArr [VObj [("id", VNum 1)]; VNull])])
    = TypeError.
Proof.
  split.
  - apply (proj1 (malformed_lists_raise (VObj [("nodes", VStr "abc")])
                    (VStr "abc") (VArr []) eq_refl)).
    intros ns; discriminate.
  - apply (proj1 (proj2 (malformed_lists_raise
                           (VObj [("nodes",
                                   VArr [VObj [("id", VNum 1)]; VNull])])
                           (VArr [VObj [("id", VNum 1)]; VNull]) (VArr [])
                           eq_refl))
             [VObj [("id", VNum 1)]; VNull] eq_refl).
    simpl; tauto.
Defined.



(** ** Further properties of the layout *)



(** ** Properties of CustomNode *)

(** X13.  The box a node is rendered in is never wider than the
    footprint layout reserved for it; it is taller than the footprint
    exactly for condition and switch nodes (160 against 150 or 120). *)
Theorem rendered_box_vs_footprint (n : node) :
  (fst (dimensions (nodeType (data n))) <= fst (footprint n))%Z /\
  ((snd (dimensions (nodeType (data n))) <= snd (footprint n))%Z <->
   includes ["condition"; "switch"] (nodeType (data n)) = false).
Proof.
  unfold dimensions, footprint, isDiamond, includes. cbn [existsb].
  destruct (is_str (nodeType (data n)) "condition");
    destruct (is_str (nodeType (data n)) "switch");
    destruct (is_str (node_type n) "control"); cbn [orb fst snd];
    (split; [lia | split; intros H; try reflexivity; try discriminate; lia]).
Qed.

(** X14.  For a node normalized from a raw node with a truthy kind
    tag, branch resolution and rendering agree on [condition] only:
    the node is a decision source with a [true] handle exactly for
    that tag; a [control] node is a decision source rendered with the
    unnamed handle alone, and a [switch] node is rendered with the
    [true] and [false] handles but is no decision source. *)
Theorem branch_handles_only_on_condition (raw tag : value) (n : node) :
  normalize_node raw = Ok n ->
  get raw "type" = Ok tag -> truthy tag = true ->
  ((isDecision (Some n) = true /\
    In (Some "true") (source_handles (nodeType (data n)))) <->
   tag = VStr "condition") /\
  (tag = VStr "control" ->
   isDecision (Some n) = true /\
   source_handles (nodeType (data n)) = [None]) /\
  (tag = VStr "switch" ->
   isDecision (Some n) = false /\
   source_handles (nodeType (data n)) = [Some "true"; Some "false"; None]).
Proof.
  intros H Ht Tt.
  destruct (normalize_node_tagged raw tag n H Ht Tt) as (Hnt & Hty).
  assert (Hctl : is_str (node_type n) "control" = is_str tag "control").
  { destruct Hty as [Hty | Hty]; rewrite Hty; [reflexivity|].
    destruct (is_str tag "control") eqn:E; [|reflexivity].
    destruct tag; try discriminate. apply String.eqb_eq in E. subst s.
    rewrite (normalize_node_recognized raw n "control") in Hty;
      [discriminate Hty | simpl; tauto | assumption | assumption]. }
  unfold isDecision. rewrite Hnt, Hctl. split; [|split].
  - split.
    + intros [Hd Hin]. unfold source_handles in Hin.
      destruct tag; try (simpl in Hin; destruct Hin as [Hin | []];
                         discriminate Hin).
      simpl in Hd, Hin.
      destruct (String.eqb s "condition") eqn:E1.
      * apply String.eqb_eq in E1. now subst.
      * destruct (String.eqb s "switch") eqn:E2.
        -- apply String.eqb_eq in E2. subst s. discriminate Hd.
        -- simpl in Hin. destruct Hin as [Hin | []]. discriminate Hin.
    + intros ->. split; [reflexivity | simpl; tauto].
  - intros ->. split; reflexivity.
  - intros ->. split; reflexivity.
Qed.

Lemma branch_handles_only_on_condition_witness :
  exists n,
    normalize_node (VObj [("id", VNum 1); ("type", VStr "control")]) = Ok n /\
    isDecision (Some n) = true /\
    source_handles (nodeType (data n)) = [None].
Proof.
  eexists. split; [reflexivity|].
  apply (proj1 (proj2 (branch_handles_only_on_condition
                         (VObj [("id", VNum 1); ("type", VStr "control")])
                         (VStr "control") _ eq_refl eq_refl eq_refl))).
  reflexivity.
Defined.

(** X15.  The line under the label throws exactly when no integration
    name is set and the kind tag is a boolean, a number, an array or an
    object (the optional call covers [undefined] and [null] only).
    Such a node passes normalization: a raw node tagged with a number
    other than zero is normalized to the kind [default], and its
    subtitle throws unless it names an integration. *)
Theorem subtitle_raises_on_non_string_kind :
  (forall d : node_data,
      subtitle d = TypeError <->
      truthy (integration_type_name d) = false /\
      ((exists b, nodeType d = VBool b) \/ (exists z, nodeType d = VNum z) \/
       (exists l, nodeType d = VArr l) \/ (exists p, nodeType d = VObj p))) /\
  (forall raw z c,
      normalize_node raw = Ok c ->
      get raw "type" = Ok (VNum z) -> z <> 0%Z ->
      truthy (integration_type_name (data c)) = false ->
      node_type c = VStr "default" /\ subtitle (data c) = TypeError).
Proof.
  assert (Hiff : forall d : node_data,
      subtitle d = TypeError <->
      truthy (integration_type_name d) = false /\
      ((exists b, nodeType d = VBool b) \/ (exists z, nodeType d = VNum z) \/
       (exists l, nodeType d = VArr l) \/ (exists p, nodeType d = VObj p))).
  { intros d. unfold subtitle.
    destruct (truthy (integration_type_name d)).
    - split; [discriminate | intros [F _]; discriminate].
    - destruct (nodeType d) eqn:E; split; intros Hx;
        try discriminate; try reflexivity;
        try (split; [reflexivity|]; eauto 6);
        destruct Hx as [_ [[? Hx] | [[? Hx] | [[? Hx] | [? Hx]]]]];
        discriminate Hx. }
  split; [exact Hiff|].
  intros raw z c H Ht Hz Fi.
  assert (Tz : truthy (VNum z) = true).
  { simpl. apply negb_true_iff. now apply Z.eqb_neq. }
  destruct (normalize_node_tagged raw (VNum z) c H Ht Tz) as (Hnt & Hty).
  split.
  - destruct (normalize_node_kind raw c H) as (tag & key & Ht' & Hk & Hc).
    rewrite Ht in Ht'; inversion Ht'; subst tag.
    destruct Hty as [Hty | Hty]; [|assumption].
    rewrite Tz in Hk, Hc. simpl in Hk. inversion Hk; subst key.
    destruct (nodeTypes_has (string_of_Z z)) eqn:Hhas;
      [|now rewrite Hc].
    exfalso. unfold nodeTypes_has, mem in Hhas.
    apply orb_true_iff in Hhas.
    assert (Hd : forall l : list string,
               existsb (String.eqb (string_of_Z z)) l = true ->
               (forall t, In t l ->
                          exists c s, t = String c s /\
                                      Ascii.eqb c "-" = false /\
                                      (Nat.leb 48 (nat_of_ascii c)
                                       && Nat.leb (nat_of_ascii c) 57) = false)
               -> False).
    { intros l Hex Hl. apply existsb_exists in Hex.
      destruct Hex as (t & Hin & Heq). apply String.eqb_eq in Heq.
      destruct (Hl t Hin) as (c0 & s0 & -> & Hm & Hdig).
      unfold string_of_Z, NilZero.string_of_int in Heq.
      destruct (Z.to_int z) as [u|u]; [|inversion Heq; subst; discriminate Hm].
      unfold NilZero.string_of_uint in Heq.
      destruct u; simpl in Heq; inversion Heq; subst c0; discriminate Hdig. }
    destruct Hhas as [Hex | Hex]; apply (Hd _ Hex); intros t Hin; simpl in Hin;
      repeat (destruct Hin as [<- | Hin];
              [do 2 eexists; split; [reflexivity|]; split; reflexivity|]);
      contradiction.
  - apply Hiff. split; [assumption|]. right. left. exists z. assumption.
Qed.

Lemma subtitle_raises_on_non_string_kind_witness :
  exists c,
    normalize_node (VObj [("id", VNum 1); ("type", VNum 5)]) = Ok c /\
    node_type c = VStr "default" /\ subtitle (data c) = TypeError.
Proof.
  eexists. split; [reflexivity|].
  apply (proj2 subtitle_raises_on_non_string_kind
           (VObj [("id", VNum 1); ("type", VNum 5)]) 5%Z);
    [reflexivity | reflexivity | discriminate | reflexivity].
Defined.



Lemma normalize_node_config_truthy (n : value) (c : node) :
  normalize_node n = Ok c -> truthy (config (data c)) = true.
Proof.
  intros H. unfold normalize_node in H.
  bind_inv H as nt Hnt. bind_inv H as key Hkey.
  bind_inv H as i Hi. bind_inv H as si Hsi.
  bind_inv H as d Hd. bind_inv H as l Hl. bind_inv H as nt' Hnt'.
  bind_inv H as cf Hcf. repeat (inv_bind H). inversion H; subst; simpl.
  eapply or_else_default_truthy; [eassumption | reflexivity].
Qed.

(** X17.  The parameter map of a normalized node never reaches the
    block under the subtitle: normalization always leaves a truthy
    config map, which the summary prefers, so the block is the same
    whatever the parameters are. *)
Theorem details_ignore_params (raw p : value) (c : node) :
  normalize_node raw = Ok c ->
  details {| label := label (data c);
             nodeType := nodeType (data c);
             config := config (data c);
             params := p;
             integration_type_name := integration_type_name (data c);
             task := task (data c);
             task_display_name := task_display_name (data c) |}
  = details (data c).
Proof.
  intros H. pose proof (normalize_node_config_truthy raw c H) as Tc.
  unfold details. cbn [label nodeType config params integration_type_name
                       task task_display_name].
  now rewrite !(pick_truthy (config (data c))) by assumption.
Qed.

Lemma details_ignore_params_witness :
  exists c,
    normalize_node (nodes_param_sample) = Ok c /\
    details {| label := label (data c);
               nodeType := nodeType (data c);
               config := config (data c);
               params := VObj [];
               integration_type_name := integration_type_name (data c);
               task := task (data c);
               task_display_name := task_display_name (data c) |}
    = details (data c).
Proof.
  eexists. split; [reflexivity|].
  apply (details_ignore_params nodes_param_sample (VObj []) _ eq_refl).
Defined.

(** X18.  The three places of [CustomNode] that single out condition
    and switch nodes agree: the outline is the diamond exactly when
    the box is 250 by 160, and exactly then the node has the [true]
    and [false] handles.  A white stroke goes with the plain
    rectangle only. *)
Theorem diamond_box_and_handles_agree (nodeType : value) (width height : Q) :
  ((exists pts, NodeShape nodeType width height = Polygon pts) <->
   dimensions nodeType = (250, 160)%Z) /\
  (dimensions nodeType = (250, 160)%Z <->
   source_handles nodeType = [Some "true"; Some "false"; None]) /\
  (stroke nodeType = "white" ->
   NodeShape nodeType width height
   = Rect 2 2 (width - 4) (height - 4) 4 4).
Proof.
  unfold NodeShape, dimensions, source_handles, stroke, includes.
  cbn [existsb].
  destruct nodeType as [| | b | z | s | l | p]; cbn [is_str orb];
    try (split; [split; [intros [? H]; discriminate H | discriminate] |
                 split; [split; discriminate | reflexivity]]).
  destruct (String.eqb s "trigger") eqn:E1.
  { apply String.eqb_eq in E1. subst s. cbn.
    split; [split; [intros [? H]; discriminate H | discriminate] |
            split; [split; discriminate | discriminate]]. }
  destruct (String.eqb s "webhook") eqn:E2.
  { apply String.eqb_eq in E2. subst s. cbn.
    split; [split; [intros [? H]; discriminate H | discriminate] |
            split; [split; discriminate | discriminate]]. }
  destruct (String.eqb s "condition") eqn:E3.
  { apply String.eqb_eq in E3. subst s. cbn.
    split; [split; [reflexivity | eauto] |
            split; [split; reflexivity | discriminate]]. }
  destruct (String.eqb s "switch") eqn:E4.
  { apply String.eqb_eq in E4. subst s. cbn.
    split; [split; [reflexivity | eauto] |
            split; [split; reflexivity | discriminate]]. }
  cbn [orb].
  destruct (String.eqb s "log") eqn:E5.
  { apply String.eqb_eq in E5. subst s. cbn.
    split; [split; [intros [? H]; discriminate H | discriminate] |
            split; [split; discriminate | discriminate]]. }
  cbn [orb].
  split; [split; [intros [? H]; discriminate H | discriminate] |
          split; [split; discriminate | reflexivity]].
Qed.

(** ** Properties of the console *)

Section ConsoleProperties.

Variable trim : string -> string.
Variable stringify : value -> string.
Variable toLocaleTimeString : nat -> string.
Variable type_error_message : throw_site -> string.

Local Abbreviation settled :=
  (settle stringify toLocaleTimeString type_error_message).

Lemma submit_some (st st1 : console) :
  submit trim st = Some st1 ->
  st1 = {| prompt := EmptyString;
           status := planning;
           messages :=
             (messages st ++
              [ {| msg_type := "user"; msg_content := prompt st |} ])%list;
           graphData := VNull;
           executionLogs := [] |}.
Proof.
  unfold submit. destruct (String.eqb (trim (prompt st)) EmptyString);
    [discriminate | now intros [= <-]].
Qed.



(** X20.  The run ends in [success] exactly when the service answered
    with a body whose [results.graph] is truthy and whose [messages]
    are missing or an array.  Then the graph of the body is installed,
    the canvas is shown, and the log has one agent entry per message,
    in order, a message that is a string being logged as it is. *)
Theorem success_installs_graph (o : fetch_outcome) (st st1 : console) :
  submit trim st = Some st1 ->
  (status (settled o st1) = success <->
   exists data g msgs,
     o = JsonBody data /\ response_graph data = Ok g /\ truthy g = true /\
     response_messages data = Ok msgs) /\
  (forall data g msgs,
     o = JsonBody data -> response_graph data = Ok g -> truthy g = true ->
     response_messages data = Ok msgs ->
     graphData (settled o st1) = g /\
     canvas_shown (settled o st1) = true /\
     List.length (executionLogs (settled o st1)) = List.length msgs /\
     forall i s, nth_error msgs i = Some (VStr s) ->
       exists entry,
         nth_error (executionLogs (settled o st1)) i = Some entry /\
         log_type entry = "agent" /\ log_content entry = s).
Proof.
  intros Hs. apply submit_some in Hs. split.
  - unfold settle. split.
    + destruct o as [r | | r | data]; try discriminate.
      destruct (response_graph data) as [sel|] eqn:Hg; [|discriminate].
      destruct (truthy sel) eqn:Tg; [|discriminate].
      destruct (response_messages data) as [msgs|] eqn:Hm; [|discriminate].
      intros _. exists data, sel, msgs. auto.
    + intros (data & g & msgs & -> & Hg & Tg & Hm).
      now rewrite Hg, Tg, Hm.
  - intros data g msgs -> Hg Tg Hm.
    unfold settle, canvas_shown. rewrite Hg, Tg, Hm.
    cbn [graphData executionLogs].
    split; [reflexivity|]. split; [assumption|].
    assert (Hlogs : forall k l,
               List.length (newLogs stringify toLocaleTimeString k l)
               = List.length l /\
               forall i s, nth_error l i = Some (VStr s) ->
                 exists entry,
                   nth_error (newLogs stringify toLocaleTimeString k l) i
                   = Some entry /\
                   log_type entry = "agent" /\ log_content entry = s).
    { intros k l. revert k.
      induction l as [|m rest IH]; intros k; simpl.
      - split; [reflexivity|]. intros i s Hi. destruct i; discriminate.
      - destruct (IH (S k)) as (Hlen & Hnth). split; [now rewrite Hlen|].
        intros i s Hi. destruct i as [|i]; simpl in *.
        + inversion Hi; subst. eexists. repeat split; reflexivity.
        + now apply Hnth. }
    exact (Hlogs 0 msgs).
Qed.


End ConsoleProperties.

Lemma response_graph_clean (data g : value) :
  json_clean data = true -> response_graph data = Ok g -> clean_or_undef g.
Proof.
  intros Cd H. unfold response_graph, and_then in H.
  bind_inv H as r Hr.
  assert (Cr : clean_or_undef r) by exact (get_clean data r _ (or_introl Cd) Hr).
  destruct (truthy r); [|now inversion H; subst].
  bind_inv H as r' Hr'. rewrite Hr in Hr'. inversion Hr'; subst r'.
  exact (get_clean r g _ Cr H).
Qed.

(** X22.  After a run that ended in [success] on a parsed JSON body,
    Download JSON writes the graph of that body, unchanged. *)
Theorem download_after_success
    (trim : string -> string) (stringify : value -> string)
    (toLocaleTimeString : nat -> string)
    (type_error_message : throw_site -> string)
    (data : value) (st st1 : console) :
  submit trim st = Some st1 ->
  json_clean data = true ->
  status (settle stringify toLocaleTimeString type_error_message
            (JsonBody data) st1) = success ->
  exists g,
    response_graph data = Ok g /\
    downloadJson
      (graphData (settle stringify toLocaleTimeString type_error_message
                    (JsonBody data) st1)) = Some g.
Proof.
  intros Hs Cd. unfold settle.
  destruct (response_graph data) as [g|] eqn:Hg; [|discriminate].
  destruct (truthy g) eqn:Tg; [|discriminate].
  destruct (response_messages data); [|discriminate].
  intros _. exists g. split; [reflexivity|].
  cbn [graphData]. unfold downloadJson. rewrite Tg.
  rewrite json_roundtrip_clean; [reflexivity|].
  apply truthy_clean; [|assumption].
  now apply (response_graph_clean data).
Qed.


Lemma success_installs_graph_witness :
  exists st1,
    submit sample_trim typed_console = Some st1 /\
    status (settle sample_stringify sample_clock sample_message
              (JsonBody sample_body) st1) = success /\
    graphData (settle sample_stringify sample_clock sample_message
                 (JsonBody sample_body) st1) = loadSampleGraph.
Proof.
  eexists. split; [reflexivity|].
  destruct (success_installs_graph sample_trim sample_stringify sample_clock
              sample_message (JsonBody sample_body) typed_console _ eq_refl)
    as (Hiff & Hok).
  split.
  - apply (proj2 Hiff). do 3 eexists.
    split; [reflexivity|]. split; [reflexivity|]. split; reflexivity.
  - apply (Hok sample_body loadSampleGraph
             [VStr "planned"; VObj [("step", VNum 1)]]); reflexivity.
Defined.


Lemma download_after_success_witness :
  exists st1 g,
    submit sample_trim typed_console = Some st1 /\
    response_graph sample_body = Ok g /\
    downloadJson
      (graphData (settle sample_stringify sample_clock sample_message
                    (JsonBody sample_body) st1)) = Some g.
Proof.
  eexists.
  destruct (download_after_success sample_trim sample_stringify sample_clock
              sample_message sample_body typed_console _
              eq_refl eq_refl eq_refl) as (g & Hg & Hd).
  exists g. split; [reflexivity|]. split; [exact Hg | exact Hd].
Defined.

(** ** Further properties across the components *)

Lemma json_roundtrip_is_clean (v : value) :
  v <> VUndef -> json_clean (json_roundtrip v) = true.
Proof.
  induction v as [| | b | z | s | elems IH | props IH] using value_ind;
    intros Hv; try reflexivity.
  - now destruct Hv.
  - clear Hv. cbn [json_roundtrip json_clean].
    induction IH as [|x rest Hx _ IHrest]; simpl; [reflexivity|].
    rewrite IHrest, andb_true_r.
    destruct x; try reflexivity; apply Hx; discriminate.
  - clear Hv. cbn [json_roundtrip json_clean].
    induction IH as [|[k x] rest Hx _ IHrest]; [reflexivity|].
    simpl in Hx.
    destruct x; simpl; rewrite ?IHrest, ?andb_true_r; try reflexivity;
      try exact IHrest; apply Hx; discriminate.
Qed.

(** X23.  Saving and re-reading a canonical node settles after one
    pass: the node obtained by normalizing the serialized form of a
    normalized node is reproduced unchanged when it is serialized and
    normalized again. *)
Theorem renormalization_settles (n : value) (c : node) :
  json_clean n = true ->
  normalize_node n = Ok c ->
  normalize_node (json_roundtrip (node_to_value c)) = Ok (renormalized c) /\
  normalize_node (json_roundtrip (node_to_value (renormalized c)))
    = Ok (renormalized c).
Proof.
  intros Cn H.
  pose proof (renormalize_node n c Cn H) as H1. split; [exact H1|].
  assert (Cn' : json_clean (json_roundtrip (node_to_value c)) = true)
    by (apply json_roundtrip_is_clean; discriminate).
  exact (renormalize_node _ _ Cn' H1).
Qed.

Lemma renormalization_settles_witness :
  exists c,
    normalize_node nodes_param_sample = Ok c /\
    params (data c) = VObj [("ip", VStr "1.2.3.4")] /\
    normalize_node (json_roundtrip (node_to_value (renormalized c)))
      = Ok (renormalized c).
Proof.
  eexists. split; [reflexivity|]. split; [reflexivity|].
  apply (proj2 (renormalization_settles nodes_param_sample _
                  eq_refl eq_refl)).
Defined.

Lemma find_node_some (ns : list node) (c : node) :
  In c ns ->
  exists c', find_node ns (node_id c) = Some c' /\ node_id c' = node_id c.
Proof.
  unfold find_node. induction ns as [|m rest IH]; simpl; intros Hin.
  - contradiction.
  - destruct (String.eqb (node_id m) (node_id c)) eqn:E.
    + apply String.eqb_eq in E. eauto.
    + destruct Hin as [-> | Hin]; [now rewrite String.eqb_refl in E | auto].
Qed.

(** X24.  An edge whose truthy [source] prints like the id of some raw
    node is never dangling, however the two are written (a number on
    one side, its digits as text on the other): the lookup finds a
    node with the edge's source as id. *)
Theorem matching_source_is_found
    (g : value) (cg : graph) (ns es : list value)
    (i j : nat) (n e x s : value) (ce : edge) :
  normalize g = Ok cg ->
  raw_lists g = Ok (VArr ns, VArr es) ->
  nth_error ns i = Some n -> get n "id" = Ok x ->
  nth_error es j = Some e -> nth_error (edges cg) j = Some ce ->
  get e "source" = Ok s -> truthy s = true ->
  to_string s = to_string x ->
  exists c, find_node (nodes cg) (source ce) = Some c /\
            node_id c = source ce.
Proof.
  intros H Hraw Hn Hx He Hce Hs Ts Heq.
  destruct (normalize_ok _ _ H) as (ns' & es' & Hraw' & Hns & Hes).
  rewrite Hraw in Hraw'. inversion Hraw'; subst ns' es'.
  destruct (mapM_nth _ _ _ Hns _ _ Hn) as (c & Hc & Hnc).
  destruct (mapiM_from_nth _ _ _ _ Hes _ _ He) as (ce' & Hce' & Hp).
  rewrite Hce in Hce'. inversion Hce'; subst ce'.
  assert (Hid : to_string x = Ok (node_id c)).
  { unfold normalize_node in Hnc.
    bind_inv Hnc as nt Hnt. bind_inv Hnc as key Hkey.
    bind_inv Hnc as x' Hx'. bind_inv Hnc as sx Hsx.
    repeat (inv_bind Hnc). inversion Hnc; subst; simpl.
    rewrite Hx in Hx'. now inversion Hx'; subst. }
  destruct (process_edge_ok _ _ _ _ Hp)
    as (src & tgt & h0 & l & cond & h1 & Hsrc & Hss & _).
  rewrite (or_else_truthy _ _ s Hs Ts) in Hsrc. inversion Hsrc; subst src.
  assert (Hsame : source ce = node_id c) by congruence.
  rewrite Hsame. apply find_node_some.
  eapply nth_error_In; eassumption.
Qed.

Lemma matching_source_is_found_witness :
  let g := VObj [("nodes", VArr [VObj [("id", VStr "7")]]);
                 ("edges", VArr [VObj [("source", VNum 7);
                                       ("target", VNum 8)]])] in
  exists cg ce c,
    normalize g = Ok cg /\ nth_error (edges cg) 0 = Some ce /\
    find_node (nodes cg) (source ce) = Some c /\ node_id c = source ce.
Proof.
  intros g. eexists. eexists.
  destruct (matching_source_is_found g _
              [VObj [("id", VStr "7")]]
              [VObj [("source", VNum 7); ("target", VNum 8)]]
              0 0 (VObj [("id", VStr "7")])
              (VObj [("source", VNum 7); ("target", VNum 8)])
              (VStr "7") (VNum 7) _
              eq_refl eq_refl eq_refl eq_refl eq_refl eq_refl
              eq_refl eq_refl eq_refl) as (c & Hf & Hid).
  exists c. split; [reflexivity|]. split; [reflexivity|].
  split; [exact Hf | exact Hid].
Defined.
